(** * Deal Structure form (src/index.tsx): currency codec, total calculator
      and the per-field edit/save state machine.

    The development embeds the logic of the [DealStructure] component:
    [parseCurrencyInput], [calculateTotal], [handleFocus],
    [handleFieldChange] and [handleBlur], together with the ECMAScript
    library functions they call ([parseFloat], [Number.prototype.toFixed],
    [Number.prototype.toLocaleString], [String.prototype.split], ...).

    JavaScript strings are modelled as [string] (sequences of 8-bit
    characters); every character the code inspects is ASCII, and a regular
    expression class such as [[^0-9.]] treats every other character alike.
    JavaScript numbers are IEEE 754 binary64 values, modelled by
    [spec_float] with precision 53 and maximal exponent 1024. *)

From Stdlib Require Import ZArith List Bool Ascii String Lia.
From Stdlib Require Import Numbers.DecimalString Numbers.DecimalN.
From Stdlib Require Import Floats.SpecFloat.
Import ListNotations.

Local Open Scope string_scope.
Local Open Scope Z_scope.

(** ** Strings as the code uses them *)

Module JSString.

(** [/[0-9]/] *)
Definition isDigit (c : ascii) : bool :=
  let n := N_of_ascii c in ((48 <=? n) && (n <=? 57))%N.

(** The characters kept by [replace(/[^0-9.]/g, '')]. *)
Definition isNumericChar (c : ascii) : bool :=
  isDigit c || Ascii.eqb c ".".

Fixpoint filter (p : ascii -> bool) (s : string) : string :=
  match s with
  | EmptyString => EmptyString
  | String c s' => if p c then String c (filter p s') else filter p s'
  end.

(** [s.replace(/[^0-9.]/g, '')] *)
Definition stripNonNumeric (s : string) : string := filter isNumericChar s.

(** [s.split(sep)] for a one-character separator: never the empty list. *)
Fixpoint split (sep : ascii) (s : string) : list string :=
  match s with
  | EmptyString => [EmptyString]
  | String c s' =>
      if Ascii.eqb c sep then EmptyString :: split sep s'
      else match split sep s' with
           | p :: ps => String c p :: ps
           | [] => [String c EmptyString]
           end
  end.

(** [parts.join('')] *)
Fixpoint join (parts : list string) : string :=
  match parts with
  | [] => EmptyString
  | p :: ps => p ++ join ps
  end.

(** [s.substring(0, n)] *)
Fixpoint take (n : nat) (s : string) : string :=
  match n, s with
  | O, _ => EmptyString
  | _, EmptyString => EmptyString
  | S n', String c s' => String c (take n' s')
  end.

(** [s.substring(n)] *)
Fixpoint drop (n : nat) (s : string) : string :=
  match n, s with
  | O, _ => s
  | _, EmptyString => EmptyString
  | S n', String _ s' => drop n' s'
  end.

Fixpoint forallb (p : ascii -> bool) (s : string) : bool :=
  match s with
  | EmptyString => true
  | String c s' => p c && forallb p s'
  end.

Fixpoint count (c : ascii) (s : string) : nat :=
  match s with
  | EmptyString => O
  | String c' s' => (if Ascii.eqb c' c then 1 else 0) + count c s'
  end.

(** The characters after the first occurrence of [c]; empty when there is
    none. *)
Fixpoint afterFirst (c : ascii) (s : string) : string :=
  match s with
  | EmptyString => EmptyString
  | String c' s' => if Ascii.eqb c' c then s' else afterFirst c s'
  end.

Fixpoint replicate (n : nat) (c : ascii) : string :=
  match n with
  | O => EmptyString
  | S n' => String c (replicate n' c)
  end.

End JSString.

(** ** Currency codec: [parseCurrencyInput] (the spec's [sanitize]) *)

(** Lines 134-148.  The [typeof input !== 'string'] guard is the typing of
    the argument. *)
Definition parseCurrencyInput (input : string) : string :=
  let numericString := JSString.stripNonNumeric input in
  let parts := JSString.split "." numericString in
  if (2 <? List.length parts)%nat then
    nth 0 parts "" ++ "." ++ JSString.join (tl parts)
  else
    match nth_error parts 1 with
    | Some p1 =>
        if negb (String.eqb p1 "") && (2 <? String.length p1)%nat
        then nth 0 parts "" ++ "." ++ JSString.take 2 p1
        else numericString
    | None => numericString
    end.

(** ** JavaScript numbers *)

Module JSNumber.

Definition prec : Z := 53.
Definition emax : Z := 1024.

Definition number : Type := spec_float.

Definition NaN : number := S754_nan.
Definition zero : number := S754_zero false.

Definition isNaN (x : number) : bool :=
  match x with S754_nan => true | _ => false end.

Definition isFinite (x : number) : bool :=
  match x with S754_zero _ | S754_finite _ _ _ => true | _ => false end.

(** [x < 0] *)
Definition isNegative (x : number) : bool :=
  match x with
  | S754_finite true _ _ | S754_infinity true => true
  | _ => false
  end.

Definition add (x y : number) : number := SFadd prec emax x y.
Definition sub (x y : number) : number := SFsub prec emax x y.
Definition ltb (x y : number) : bool := SFltb x y.
Definition neg (x : number) : number := SFopp x.

(** The number nearest to [n / d] (ties to even), for [0 <= n], [0 < d]. *)
Definition ofRatio (n d : Z) : number :=
  match n with
  | Z0 => zero
  | Zpos _ =>
      let '(q, e, l) := SFdiv_core_binary prec emax n 0 d 0 in
      binary_round_aux prec emax false q e l
  | Zneg _ => NaN
  end.

(** The number nearest to [m * 10 ^ e10], for [0 <= m]. *)
Definition ofDecimal (m e10 : Z) : number :=
  if 0 <=? e10 then ofRatio (m * 10 ^ e10) 1 else ofRatio m (10 ^ (- e10)).

Definition ofInteger (n : Z) : number := ofRatio n 1.

(** [x || 0] on numbers: NaN, +0 and -0 are falsy. *)
Definition orZero (x : number) : number :=
  match x with
  | S754_nan | S754_zero _ => zero
  | _ => x
  end.

(** *** Decimal digit strings *)

Definition decimalString (n : Z) : string :=
  NilZero.string_of_uint (N.to_uint (Z.to_N n)).

Definition digitValue (c : ascii) : Z := Z.of_N (N_of_ascii c) - 48.

(** The integer a run of decimal digits denotes, most significant first. *)
Fixpoint digitsValueFrom (acc : Z) (s : string) : Z :=
  match s with
  | EmptyString => acc
  | String c s' => digitsValueFrom (10 * acc + digitValue c) s'
  end.

Definition digitsValue (s : string) : Z := digitsValueFrom 0 s.

(** The longest prefix of decimal digits, and what follows it. *)
Fixpoint spanDigits (s : string) : string * string :=
  match s with
  | EmptyString => (EmptyString, EmptyString)
  | String c s' =>
      if JSString.isDigit c
      then let '(ds, r) := spanDigits s' in (String c ds, r)
      else (EmptyString, s)
  end.

(** *** [parseFloat] (ECMA-262, 19.2.4) *)

(** White space and line terminators within ASCII; the component only
    passes ASCII text to [parseFloat]: sanitized values, [toFixed] results
    and stripped operands. *)
Definition isWhiteSpace (c : ascii) : bool :=
  let n := N_of_ascii c in (((9 <=? n) && (n <=? 13)) || (n =? 32))%N.

Fixpoint trimStart (s : string) : string :=
  match s with
  | EmptyString => EmptyString
  | String c s' => if isWhiteSpace c then trimStart s' else s
  end.

Definition readSign (s : string) : bool * string :=
  match s with
  | String "-" r => (true, r)
  | String "+" r => (false, r)
  | _ => (false, s)
  end.

(** The value of an [ExponentPart] at the head of [s], 0 when there is
    none. *)
Definition readExponent (s : string) : Z :=
  match s with
  | String c r =>
      if Ascii.eqb c "e" || Ascii.eqb c "E" then
        let '(sg, r') := readSign r in
        let '(ds, _) := spanDigits r' in
        if String.eqb ds "" then 0
        else if sg then - digitsValue ds else digitsValue ds
      else 0
  | EmptyString => 0
  end.

(** The longest prefix that is a [StrUnsignedDecimalLiteral] other than
    [Infinity], rounded to a number; NaN when there is none. *)
Definition parseUnsigned (s : string) : number :=
  let '(ip, r1) := spanDigits s in
  let '(fp, r2) :=
    match r1 with
    | String "." r => spanDigits r
    | _ => (EmptyString, r1)
    end in
  if String.eqb ip "" && String.eqb fp "" then NaN
  else ofDecimal (digitsValue (ip ++ fp))
                 (readExponent r2 - Z.of_nat (String.length fp)).

Definition parseFloat (s : string) : number :=
  let '(sg, r) := readSign (trimStart s) in
  let x := if String.prefix "Infinity" r then S754_infinity false
           else parseUnsigned r in
  if sg then neg x else x.

(** *** [Number.prototype.toFixed] (ECMA-262, 21.1.3.3) *)

(** The integer [n] for which [n / 100 - m * 2 ^ e] is as close to zero as
    possible, the larger one when there are two. *)
Definition nearestHundredths (m : positive) (e : Z) : Z :=
  if 0 <=? e then Z.pos m * 2 ^ e * 100
  else (200 * Z.pos m + 2 ^ (- e)) / 2 ^ (1 - e).

(** [m * 2 ^ e >= k] *)
Definition magnitudeGe (m : positive) (e : Z) (k : Z) : bool :=
  if 0 <=? e then k <=? Z.pos m * 2 ^ e else k * 2 ^ (- e) <=? Z.pos m.

(** Steps 10.a-10.c: the digits of [n], padded with zeros on the left to
    three digits at least, cut before the last two. *)
Definition fixedDigits (n : Z) : string * string :=
  let m := decimalString n in
  let k := String.length m in
  let m := if (k <=? 2)%nat then JSString.replicate (3 - k) "0" ++ m else m in
  let k := String.length m in
  (JSString.take (k - 2) m, JSString.drop (k - 2) m).

Definition insertPoint2 (n : Z) : string :=
  let '(a, b) := fixedDigits n in a ++ "." ++ b.

Definition eqb (x y : number) : bool :=
  match x, y with
  | S754_zero a, S754_zero b | S754_infinity a, S754_infinity b =>
      Bool.eqb a b
  | S754_finite a m e, S754_finite b m' e' =>
      Bool.eqb a b && Pos.eqb m m' && Z.eqb e e'
  | S754_nan, S754_nan => true
  | _, _ => false
  end.

(** [Number::toString] (ECMA-262, 6.1.6.1.20) of a positive integral
    number [x = X] of at least 22 digits.  [shortest k] looks for the
    least number of significant digits [k], starting from [k], for which
    some [s * 10 ^ (d - k)] rounds to [x]; of the two candidates around
    [X] it takes the closer one, the even one when they are as close. *)
Section ToStringLarge.
Variable x : number.
Variable X : Z.

Let d : Z := Z.of_nat (String.length (decimalString X)).

Fixpoint shortest (fuel : nat) (k : Z) : Z * Z :=
  let p := 10 ^ (d - k) in
  let lo := X / p in
  let hi := lo + 1 in
  let okLo := eqb (ofInteger (lo * p)) x in
  let okHi := eqb (ofInteger (hi * p)) x in
  let pickLo :=
    match Z.compare (X - lo * p) (hi * p - X) with
    | Lt => true
    | Gt => false
    | Eq => Z.even lo
    end in
  match fuel with
  | O => (lo, k)
  | S fuel' =>
      if okLo && okHi then (if pickLo then lo else hi, k)
      else if okLo then (lo, k)
      else if okHi then (hi, k)
      else shortest fuel' (k + 1)
  end.

Definition toStringLarge : string :=
  let '(s, k) := shortest 17 1 in
  let '(s, n) := if s =? 10 ^ k then (10 ^ (k - 1), d + 1) else (s, d) in
  let digits := decimalString s in
  let e := "e" ++ "+" ++ decimalString (n - 1) in
  match digits with
  | String c EmptyString => digits ++ e
  | String c rest => String c ("." ++ rest) ++ e
  | EmptyString => e
  end.
End ToStringLarge.

(** [x.toFixed(2)].  A number of magnitude 10^21 or more is an integer
    ([0 < e]), printed by [Number::toString]. *)
Definition toFixed2 (x : number) : string :=
  match x with
  | S754_nan => "NaN"
  | S754_infinity sg => if sg then "-Infinity" else "Infinity"
  | S754_zero _ => "0.00"
  | S754_finite sg m e =>
      let s := if sg then "-" else "" in
      let body :=
        if magnitudeGe m e (10 ^ 21)
        then toStringLarge (S754_finite false m e) (Z.pos m * 2 ^ e)
        else insertPoint2 (nearestHundredths m e) in
      s ++ body
  end.

(** *** [Number.prototype.toLocaleString('en-US',
        { style: 'currency', currency: 'USD' })] (ECMA-402) *)

(** The formatter takes a number by its shortest decimal: the least number
    [k] of significant digits [s] with [s * 10 ^ (n - k)] reading back as
    the same number, the digits [Number::toString] prints.  For a positive
    number [x = N / D], [decimalExponent] is the [n] with
    [10 ^ (n - 1) <= x < 10 ^ n], and [shortestDigits k] looks for the
    least [k], starting from [k]; of the two candidates around [x] it takes
    the closer one, the even one when they are as close. *)
Section ShortestDecimal.
Variable x : number.
Variables N D : Z.

Definition decimalExponent : Z :=
  if D <=? N then Z.of_nat (String.length (decimalString (N / D)))
  else
    let j := Z.of_nat (String.length (decimalString (D / N))) in
    if N * 10 ^ (j - 1) =? D then 2 - j else 1 - j.

Fixpoint shortestDigits (fuel : nat) (k : Z) : Z * Z :=
  let n := decimalExponent in
  let t := k - n in
  let num := if 0 <=? t then N * 10 ^ t else N in
  let den := if 0 <=? t then D else D * 10 ^ (- t) in
  let lo := num / den in
  let hi := lo + 1 in
  let okLo := eqb (ofDecimal lo (n - k)) x in
  let okHi := eqb (ofDecimal hi (n - k)) x in
  let pickLo :=
    match Z.compare (num - lo * den) (hi * den - num) with
    | Lt => true
    | Gt => false
    | Eq => Z.even lo
    end in
  match fuel with
  | O => (lo, k)
  | S fuel' =>
      if okLo && okHi then (if pickLo then lo else hi, k)
      else if okLo then (lo, k)
      else if okHi then (hi, k)
      else shortestDigits fuel' (k + 1)
  end.

(** The shortest decimal in hundredths, rounded half away from zero. *)
Definition shortestHundredths : Z :=
  let '(s, k) := shortestDigits 17 1 in
  let e := decimalExponent - k + 2 in
  if 0 <=? e then s * 10 ^ e else (2 * s + 10 ^ (- e)) / (2 * 10 ^ (- e)).
End ShortestDecimal.

(** The hundredths shown for the magnitude [m * 2 ^ e]. *)
Definition currencyHundredths (m : positive) (e : Z) : Z :=
  shortestHundredths (S754_finite false m e)
    (if 0 <=? e then Z.pos m * 2 ^ e else Z.pos m)
    (if 0 <=? e then 1 else 2 ^ (- e)).

(** Grouping separators of the en-US locale: a comma before every run of
    three digits counted from the right. *)
Fixpoint group3 (s : string) : string :=
  match s with
  | EmptyString => EmptyString
  | String c r =>
      let n := String.length r in
      String c (if (0 <? n)%nat && (n mod 3 =? 0)%nat
                then "," ++ group3 r else group3 r)
  end.

(** U+221E in UTF-8. *)
Definition infinitySymbol : string :=
  String (ascii_of_nat 226) (String (ascii_of_nat 136)
    (String (ascii_of_nat 158) EmptyString)).

(** Two fraction digits (the minor unit of USD); the integer digits
    grouped. *)
Definition currencyBody (n : Z) : string :=
  let '(a, b) := fixedDigits n in group3 a ++ "." ++ b.

Definition toLocaleStringUSD (x : number) : string :=
  match x with
  | S754_nan => "$NaN"
  | S754_infinity sg => (if sg then "-$" else "$") ++ infinitySymbol
  | S754_zero sg => (if sg then "-$" else "$") ++ "0.00"
  | S754_finite sg m e =>
      (if sg then "-$" else "$") ++ currencyBody (currencyHundredths m e)
  end.

End JSNumber.

(** ** The form: fields, total calculator and event handlers *)

Import JSNumber.

Inductive Key : Type := salesPrice | downPayment | warranty | cpi | gap.

Definition Key_eqb (a b : Key) : bool :=
  match a, b with
  | salesPrice, salesPrice | downPayment, downPayment | warranty, warranty
  | cpi, cpi | gap, gap => true
  | _, _ => false
  end.

(** One entry of the [fields] state object. *)
Record FieldState : Type := mkField {
  value : string;
  isSaving : bool;
  hasError : bool
}.

(** The [fields] state object: one entry per key. *)
Record Fields : Type := mkFields {
  f_salesPrice : FieldState;
  f_downPayment : FieldState;
  f_warranty : FieldState;
  f_cpi : FieldState;
  f_gap : FieldState
}.

(** [fields[key]] *)
Definition getField (fs : Fields) (key : Key) : FieldState :=
  match key with
  | salesPrice => f_salesPrice fs
  | downPayment => f_downPayment fs
  | warranty => f_warranty fs
  | cpi => f_cpi fs
  | gap => f_gap fs
  end.

(** [{ ...prev, [key]: f }] *)
Definition setField (fs : Fields) (key : Key) (f : FieldState) : Fields :=
  match key with
  | salesPrice => mkFields f (f_downPayment fs) (f_warranty fs) (f_cpi fs) (f_gap fs)
  | downPayment => mkFields (f_salesPrice fs) f (f_warranty fs) (f_cpi fs) (f_gap fs)
  | warranty => mkFields (f_salesPrice fs) (f_downPayment fs) f (f_cpi fs) (f_gap fs)
  | cpi => mkFields (f_salesPrice fs) (f_downPayment fs) (f_warranty fs) f (f_gap fs)
  | gap => mkFields (f_salesPrice fs) (f_downPayment fs) (f_warranty fs) (f_cpi fs) f
  end.

(** Lines 109-115. *)
Definition initialFields : Fields :=
  mkFields (mkField "27537.00" false false)
           (mkField "2500.00" false false)
           (mkField "0.00" false false)
           (mkField "0.00" false false)
           (mkField "0.00" false false).

(** Lines 151-154. *)
Definition safeParseFloat (str : string) : number :=
  let num := parseFloat (JSString.stripNonNumeric str) in
  if isNaN num then zero else num.

(** The number summed at lines 156-161. *)
Definition totalNumber (currentFields : Fields) : number :=
  add (add (add (sub (safeParseFloat (value (f_salesPrice currentFields)))
                     (safeParseFloat (value (f_downPayment currentFields))))
                (safeParseFloat (value (f_warranty currentFields))))
           (safeParseFloat (value (f_cpi currentFields))))
      (safeParseFloat (value (f_gap currentFields))).

(** Lines 150-164. *)
Definition calculateTotal (currentFields : Fields) : string :=
  toLocaleStringUSD (totalNumber currentFields).

(** Line 182: [(parseFloat(currentValue) || 0).toFixed(2)], the spec's
    [commitFormat]. *)
Definition commitFormat (currentValue : string) : string :=
  toFixed2 (orZero (parseFloat currentValue)).

Inductive SaveResult : Type :=
| Saved
| Rejected (message : string).

(** Lines 202-210: the simulated remote save, once its delay has elapsed. *)
Definition remoteSave (key : Key) (formattedValue : string) : SaveResult :=
  let numericValue := parseFloat formattedValue in
  if isNaN numericValue then Rejected "Invalid number"
  else if Key_eqb key salesPrice && ltb numericValue (ofInteger 10000)
  then Rejected "Sales price must be at least $10,000"
  else Saved.

(** The component's state: the two [useState] cells, the [useRef] cell
    shared by all fields, and the blur handlers suspended at their [await],
    oldest first (all timers have the same delay). *)
Record State : Type := mkState {
  fields : Fields;
  amountFinanced : string;
  originalValueRef : option string;
  pending : list (Key * string)
}.

Definition initialState : State :=
  mkState initialFields (calculateTotal initialFields) None [].

(** Lines 168-170. *)
Definition handleFocus (key : Key) (st : State) : State :=
  mkState (fields st) (amountFinanced st)
          (Some (value (getField (fields st) key))) (pending st).

(** Lines 172-178. *)
Definition handleFieldChange (key : Key) (targetValue : string) (st : State)
  : State :=
  let newValue := parseCurrencyInput targetValue in
  let prev := fields st in
  mkState (setField prev key
             (mkField newValue (isSaving (getField prev key)) false))
          (amountFinanced st) (originalValueRef st) (pending st).

(** Lines 180-196: [handleBlur] up to its [await]. *)
Definition handleBlur (key : Key) (st : State) : State :=
  let currentValue := value (getField (fields st) key) in
  let formattedValue := commitFormat currentValue in
  let prev := fields st in
  if match originalValueRef st with
     | Some original => String.eqb formattedValue original
     | None => false
     end
  then
    if negb (String.eqb currentValue formattedValue)
    then mkState (setField prev key
                    (mkField formattedValue (isSaving (getField prev key))
                             (hasError (getField prev key))))
                 (amountFinanced st) (originalValueRef st) (pending st)
    else st
  else
    mkState (setField prev key (mkField formattedValue true false))
            (amountFinanced st) (originalValueRef st)
            (pending st ++ [(key, formattedValue)]).

(** Lines 198-226: [handleBlur] after its [await], for the handler
    suspended with [key] and [formattedValue]. *)
Definition resumeBlur (key : Key) (formattedValue : string) (st : State)
  : State :=
  match remoteSave key formattedValue with
  | Saved =>
      let currentFields := fields st in
      let updatedFields :=
        setField currentFields key
          (mkField (value (getField currentFields key)) false false) in
      mkState updatedFields (calculateTotal updatedFields)
              (originalValueRef st) (pending st)
  | Rejected _ =>
      let prev := fields st in
      mkState (setField prev key (mkField formattedValue false true))
              (amountFinanced st) (originalValueRef st) (pending st)
  end.

(** What can happen to the component: the three DOM events of a field, and
    the timer of the oldest suspended handler firing. *)
Inductive Event : Type :=
| Focus (key : Key)
| Change (key : Key) (targetValue : string)
| Blur (key : Key)
| TimerFires.

Definition step (ev : Event) (st : State) : State :=
  match ev with
  | Focus key => handleFocus key st
  | Change key targetValue => handleFieldChange key targetValue st
  | Blur key => handleBlur key st
  | TimerFires =>
      match pending st with
      | [] => st
      | (key, formattedValue) :: rest =>
          resumeBlur key formattedValue
            (mkState (fields st) (amountFinanced st) (originalValueRef st) rest)
      end
  end.

Fixpoint run (evs : list Event) (st : State) : State :=
  match evs with
  | [] => st
  | ev :: evs' => run evs' (step ev st)
  end.

(** ** Display of a field *)

(** [\w] *)
Definition isWordChar (c : ascii) : bool :=
  let n := N_of_ascii c in
  (((48 <=? n) && (n <=? 57)) || ((65 <=? n) && (n <=? 90))
   || ((97 <=? n) && (n <=? 122)) || (n =? 95))%N.

(** The length of the run of digits at the head of [s]. *)
Fixpoint digitRun (s : string) : nat :=
  match s with
  | EmptyString => O
  | String c r => if JSString.isDigit c then S (digitRun r) else O
  end.

(** [s.replace(/\B(?=(\d{3})+(?!\d))/g, ',')], read from left to right with
    [prevWord] telling whether the character before [s] is a word
    character.  The expression matches the empty string at a position that
    is not a word boundary and is followed by a run of digits whose length
    is a positive multiple of three; as the next character is then a
    digit, the position is no boundary exactly when the previous character
    is a word character. *)
Fixpoint insertThousandsCommas (prevWord : bool) (s : string) : string :=
  match s with
  | EmptyString => EmptyString
  | String c r =>
      let n := digitRun s in
      (if prevWord && (0 <? n)%nat && (n mod 3 =? 0)%nat then "," else "")
      ++ String c (insertThousandsCommas (isWordChar c) r)
  end.

(** Lines 119-132.  The destructuring [[integer, decimal]] keeps the first
    two parts of the split; [decimal] is [undefined] when there is one. *)
Definition formatInputValue (valueStr : string) : string :=
  if String.eqb valueStr "" then valueStr
  else
    let parts := JSString.split "." valueStr in
    let integer := nth 0 parts "" in
    let formattedInteger := insertThousandsCommas false integer in
    match nth_error parts 1 with
    | Some decimal => formattedInteger ++ "." ++ decimal
    | None => formattedInteger
    end.

(** Lines 240-244: the text shown in the input of a field. *)
Definition displayValue (fs : Fields) (key : Key) : string :=
  "$" ++ formatInputValue (value (getField fs key)).

(** ** Vocabulary of the properties *)

(** [/^\d+\.\d{2}$/.test(s)] *)
Definition matchesFixed2 (s : string) : bool :=
  match JSString.split "." s with
  | [a; b] =>
      negb (String.eqb a "") && JSString.forallb JSString.isDigit a
      && (String.length b =? 2)%nat && JSString.forallb JSString.isDigit b
  | _ => false
  end.

Definition isDigitOrComma (c : ascii) : bool :=
  JSString.isDigit c || Ascii.eqb c ",".

(** A currency string: an optional minus sign, the currency symbol, digits
    and grouping commas, a point and exactly two digits. *)
Definition matchesCurrency (s : string) : bool :=
  let body :=
    match s with
    | String "-" (String "$" r) => Some r
    | String "$" r => Some r
    | _ => None
    end in
  match body with
  | Some r =>
      match JSString.split "." r with
      | [a; b] =>
          negb (String.eqb a "") && JSString.forallb isDigitOrComma a
          && (String.length b =? 2)%nat && JSString.forallb JSString.isDigit b
      | _ => false
      end
  | None => false
  end.

(** The digits after the decimal point of a canonical value. *)
Definition fractionDigits (s : string) : string := JSString.afterFirst "." s.

(** [x < k] for a non-negative number [x] and an integer [k]. *)
Definition belowInteger (x : number) (k : Z) : bool :=
  match x with
  | S754_zero _ => 0 <? k
  | S754_finite false m e => negb (magnitudeGe m e k)
  | _ => false
  end.

(** [x] is a zero, a finite number or an infinity of sign [sg]. *)
Definition signedAs (sg : bool) (x : number) : Prop :=
  match x with
  | S754_zero s | S754_infinity s | S754_finite s _ _ => s = sg
  | S754_nan => False
  end.

Definition startsWithDigit (s : string) : bool :=
  match s with
  | String c _ => JSString.isDigit c
  | EmptyString => false
  end.

(** The fields of the specification's example. *)
Definition exampleFields : Fields :=
  mkFields (mkField "30000.00" false false)
           (mkField "3000.00" false false)
           (mkField "500.00" false false)
           (mkField "0.00" false false)
           (mkField "200.00" false false).

(** Fields whose Sales Price is a one followed by 309 zeros. *)
Definition overflowingFields : Fields :=
  setField initialFields salesPrice
    (mkField ("1" ++ JSString.replicate 309 "0") false false).

(** The value each field was last saved with: the initial value until a
    save of the field succeeds. *)
Definition Ledger : Type := Key -> string.

Definition initialLedger : Ledger := fun key => value (getField initialFields key).

Definition recordCommit (ev : Event) (st : State) (led : Ledger) : Ledger :=
  match ev, pending st with
  | TimerFires, (key, formattedValue) :: _ =>
      match remoteSave key formattedValue with
      | Saved => fun k => if Key_eqb k key then formattedValue else led k
      | Rejected _ => led
      end
  | _, _ => led
  end.

Fixpoint runLedger (evs : list Event) (st : State) (led : Ledger) : Ledger :=
  match evs with
  | [] => led
  | ev :: evs' => runLedger evs' (step ev st) (recordCommit ev st led)
  end.

Definition fieldsOfLedger (led : Ledger) : Fields :=
  mkFields (mkField (led salesPrice) false false)
           (mkField (led downPayment) false false)
           (mkField (led warranty) false false)
           (mkField (led cpi) false false)
           (mkField (led gap) false false).

(** Whether [ev] resumes a handler whose save succeeds. *)
Definition commitsSuccessfully (ev : Event) (st : State) : bool :=
  match ev, pending st with
  | TimerFires, (key, formattedValue) :: _ =>
      match remoteSave key formattedValue with
      | Saved => true
      | Rejected _ => false
      end
  | _, _ => false
  end.

Definition isFocus (ev : Event) : bool :=
  match ev with Focus _ => true | _ => false end.

(** The digits of a text, in order. *)
Definition digitsOf (s : string) : string := JSString.filter JSString.isDigit s.

Definition notComma (c : ascii) : bool := negb (Ascii.eqb c ",").

(** Whether a save of [key] is suspended. *)
Definition hasPendingFor (key : Key) (queue : list (Key * string)) : bool :=
  existsb (fun entry => Key_eqb (fst entry) key) queue.

(** What holds of every field in every state the component reaches. *)
Definition flagsExclusive (st : State) : Prop :=
  forall key,
    isSaving (getField (fields st) key) && hasError (getField (fields st) key)
    = false.

Definition savingHasPending (st : State) : Prop :=
  forall key,
    isSaving (getField (fields st) key) = true ->
    hasPendingFor key (pending st) = true.

Definition pendingFormatted (st : State) : Prop :=
  forall key formattedValue,
    In (key, formattedValue) (pending st) ->
    exists currentValue, formattedValue = commitFormat currentValue.

Definition errorOnlyOnSalesPrice (st : State) : Prop :=
  forall key, hasError (getField (fields st) key) = true -> key = salesPrice.

Definition isTimerFires (ev : Event) : bool :=
  match ev with TimerFires => true | _ => false end.

(** A text that [parseFloat] reads as NaN or as a number without a minus
    sign. *)
Definition parsesUnsigned (v : string) : bool :=
  match parseFloat v with
  | S754_nan | S754_zero false | S754_infinity false | S754_finite false _ _ =>
      true
  | _ => false
  end.

Definition valuesUnsigned (st : State) : Prop :=
  (forall key, parsesUnsigned (value (getField (fields st) key)) = true)
  /\ (forall key formattedValue,
        In (key, formattedValue) (pending st) ->
        parsesUnsigned formattedValue = true).

(** *** The focus snapshot, one per field

    The order in which a browser delivers focus events: the field that has
    the focus is blurred before another one is focused, and a blur reaches
    the field that has the focus.  [focused] is the field that has it. *)
Fixpoint browserOrdered (focused : option Key) (evs : list Event) : bool :=
  match evs with
  | [] => true
  | Focus key :: evs' =>
      match focused with
      | None => browserOrdered (Some key) evs'
      | Some _ => false
      end
  | Blur key :: evs' =>
      match focused with
      | Some key' => Key_eqb key key' && browserOrdered None evs'
      | None => false
      end
  | _ :: evs' => browserOrdered focused evs'
  end.

(** The field that has the focus after [evs]. *)
Fixpoint focusedAfter (focused : option Key) (evs : list Event) : option Key :=
  match evs with
  | [] => focused
  | Focus key :: evs' => focusedAfter (Some key) evs'
  | Blur _ :: evs' => focusedAfter None evs'
  | _ :: evs' => focusedAfter focused evs'
  end.

(** The form as the specification describes it: every field has a
    [snapshotOnFocus] of its own. *)
Record PerFieldState : Type := mkPerFieldState {
  pf_fields : Fields;
  pf_amountFinanced : string;
  snapshotOnFocus : Key -> option string;
  pf_pending : list (Key * string)
}.

Definition perFieldInitialState : PerFieldState :=
  mkPerFieldState initialFields (calculateTotal initialFields)
                  (fun _ => None) [].

(** The handlers of the code on that form: a focus writes the snapshot of
    its own field and of no other, a blur reads the snapshot of its own
    field; nothing else touches a snapshot. *)
Definition perFieldStep (ev : Event) (sp : PerFieldState) : PerFieldState :=
  match ev with
  | Focus key =>
      mkPerFieldState (pf_fields sp) (pf_amountFinanced sp)
        (fun k => if Key_eqb k key
                  then Some (value (getField (pf_fields sp) key))
                  else snapshotOnFocus sp k)
        (pf_pending sp)
  | Blur key =>
      let st' := handleBlur key
                   (mkState (pf_fields sp) (pf_amountFinanced sp)
                            (snapshotOnFocus sp key) (pf_pending sp)) in
      mkPerFieldState (fields st') (amountFinanced st') (snapshotOnFocus sp)
                      (pending st')
  | Change _ _ | TimerFires =>
      let st' := step ev
                   (mkState (pf_fields sp) (pf_amountFinanced sp) None
                            (pf_pending sp)) in
      mkPerFieldState (fields st') (amountFinanced st') (snapshotOnFocus sp)
                      (pending st')
  end.

Fixpoint perFieldRun (evs : list Event) (sp : PerFieldState) : PerFieldState :=
  match evs with
  | [] => sp
  | ev :: evs' => perFieldRun evs' (perFieldStep ev sp)
  end.

(** What the page shows and the saves under way are the same in both. *)
Definition sameVisible (st : State) (sp : PerFieldState) : Prop :=
  fields st = pf_fields sp
  /\ amountFinanced st = pf_amountFinanced sp
  /\ pending st = pf_pending sp.

(** * Properties *)

Arguments commitFormat : simpl never.
Arguments calculateTotal : simpl never.
Arguments remoteSave : simpl never.
Arguments parseCurrencyInput : simpl never.

(** ** Scenarios of the specification *)

Example sanitize_plain : parseCurrencyInput "$1,234.567" = "1234.56".
Proof. reflexivity. Qed.

Example sanitize_trailing_point : parseCurrencyInput "12." = "12.".
Proof. reflexivity. Qed.

Example sanitize_no_digit : parseCurrencyInput "abc" = "".
Proof. reflexivity. Qed.

Example commitFormat_rounds : commitFormat "1.005" = "1.00".
Proof. vm_compute. reflexivity. Qed.

(** The currency formatter rounds the shortest decimal of a number, not
    its binary value, and prints no more digits than that decimal has. *)
Example toLocaleString_rounds_shortest_decimal :
  toLocaleStringUSD (parseFloat "1.005") = "$1.01"
  /\ toFixed2 (parseFloat "1.005") = "1.00"
  /\ toLocaleStringUSD (ofInteger (2 ^ 60)) = "$1,152,921,504,606,847,000.00".
Proof. vm_compute. repeat split; reflexivity. Qed.

(** Scenario A: the total shown for the initial values. *)
Example initial_amountFinanced : amountFinanced initialState = "$25,037.00".
Proof. vm_compute. reflexivity. Qed.

(** ** The [fields] object *)

Lemma getField_setField_same fs k f : getField (setField fs k f) k = f.
Proof. destruct k; reflexivity. Qed.

Lemma getField_setField_other fs k k' f :
  k' <> k -> getField (setField fs k f) k' = getField fs k'.
Proof. destruct k, k'; intros H; try reflexivity; contradiction H; reflexivity. Qed.

Lemma setField_setField fs k f g :
  setField (setField fs k f) k g = setField fs k g.
Proof. destruct k; reflexivity. Qed.

Lemma setField_getField fs k : setField fs k (getField fs k) = fs.
Proof. destruct fs, k; reflexivity. Qed.

Lemma Key_eqb_eq a b : Key_eqb a b = true <-> a = b.
Proof. destruct a, b; simpl; split; intros H; congruence. Qed.

Lemma run_app evs1 evs2 st : run (evs1 ++ evs2) st = run evs2 (run evs1 st).
Proof. revert st; induction evs1 as [|ev evs1 IH]; intros st; simpl; auto. Qed.

(** A run of edits of one field leaves the last sanitized input in it, with
    the error flag down; nothing else moves. *)
Lemma run_changes k raws st :
  raws <> [] ->
  run (map (Change k) raws) st =
  mkState (setField (fields st) k
             (mkField (parseCurrencyInput (last raws ""))
                      (isSaving (getField (fields st) k)) false))
          (amountFinanced st) (originalValueRef st) (pending st).
Proof.
  revert st; induction raws as [|raw raws IH]; intros st Hne; [congruence|].
  destruct raws as [|raw' raws].
  - reflexivity.
  - change (run (map (Change k) (raw :: raw' :: raws)) st)
      with (run (map (Change k) (raw' :: raws)) (handleFieldChange k raw st)).
    rewrite IH by congruence.
    unfold handleFieldChange; cbn [fields amountFinanced originalValueRef pending].
    rewrite setField_setField, getField_setField_same.
    reflexivity.
Qed.

(** ** Editing a field *)

(** C8: an [onChange] event stores the sanitized input in the field and
    lowers its error flag, whatever the flag was; it does so in the handler
    itself: the suspended saves are all still suspended afterwards, the
    saving flag, the other fields, the total and the focus snapshot are as
    before. *)
Theorem change_sanitizes_and_clears_error :
  forall (st : State) (key : Key) (targetValue : string),
    let st' := step (Change key targetValue) st in
    value (getField (fields st') key) = parseCurrencyInput targetValue
    /\ hasError (getField (fields st') key) = false
    /\ isSaving (getField (fields st') key) = isSaving (getField (fields st) key)
    /\ pending st' = pending st
    /\ amountFinanced st' = amountFinanced st
    /\ originalValueRef st' = originalValueRef st
    /\ (forall k, k <> key -> getField (fields st') k = getField (fields st) k).
Proof.
  intros st key targetValue; cbn zeta.
  unfold step, handleFieldChange; cbn [fields amountFinanced originalValueRef pending].
  rewrite getField_setField_same; cbn [value hasError isSaving].
  repeat split.
  intros k Hk; apply getField_setField_other; exact Hk.
Qed.

Lemma change_sanitizes_and_clears_error_witness :
  let st := run [Focus salesPrice; Change salesPrice "9999"; Blur salesPrice;
                 TimerFires] initialState in
  let st' := step (Change salesPrice "$12,345.678") st in
  value (getField (fields st') salesPrice) = "12345.67"
  /\ hasError (getField (fields st') salesPrice) = false
  /\ getField (fields st') downPayment = getField (fields st) downPayment.
Proof.
  cbn zeta.
  destruct (change_sanitizes_and_clears_error
              (run [Focus salesPrice; Change salesPrice "9999";
                    Blur salesPrice; TimerFires] initialState)
              salesPrice "$12,345.678")
    as (Hvalue & Herror & _ & _ & _ & _ & Hothers).
  split; [rewrite Hvalue; reflexivity|].
  split; [exact Herror|].
  apply Hothers; discriminate.
Defined.

(** An error raised by a rejected save is gone after the next edit, before
    any timer fires (scenario C). *)
Example edit_after_rejection :
  let st := run [Focus salesPrice; Change salesPrice "9999"; Blur salesPrice;
                 TimerFires] initialState in
  hasError (getField (fields st) salesPrice) = true
  /\ hasError (getField (fields (step (Change salesPrice "$9,999.001") st))
                        salesPrice) = false.
Proof. vm_compute. split; reflexivity. Qed.

(** ** Rejected saves *)

Lemma resumeBlur_rejected key formattedValue st msg :
  remoteSave key formattedValue = Rejected msg ->
  resumeBlur key formattedValue st =
  mkState (setField (fields st) key (mkField formattedValue false true))
          (amountFinanced st) (originalValueRef st) (pending st).
Proof. intros H; unfold resumeBlur; rewrite H; reflexivity. Qed.

Lemma resumeBlur_saved key formattedValue st :
  remoteSave key formattedValue = Saved ->
  resumeBlur key formattedValue st =
  let updatedFields :=
    setField (fields st) key
      (mkField (value (getField (fields st) key)) false false) in
  mkState updatedFields (calculateTotal updatedFields)
          (originalValueRef st) (pending st).
Proof. intros H; unfold resumeBlur; rewrite H; reflexivity. Qed.

(** C3: when the save of a field is rejected, the field holds the value
    that was attempted with the error flag up and the saving flag down, and
    the total is the one shown before; the other fields are untouched.
    Second part: for a field focused, edited and blurred while no save is
    suspended, the rejected attempt is the formatted last input, not the
    value the field had at focus, and the total is the one shown before the
    focus. *)
Theorem rejected_save_keeps_attempt :
  (forall (st : State) (key : Key) (formattedValue msg : string)
          (rest : list (Key * string)),
      pending st = (key, formattedValue) :: rest ->
      remoteSave key formattedValue = Rejected msg ->
      let st' := step TimerFires st in
      getField (fields st') key = mkField formattedValue false true
      /\ amountFinanced st' = amountFinanced st
      /\ (forall k, k <> key -> getField (fields st') k = getField (fields st) k))
  /\
  (forall (st : State) (key : Key) (raws : list string) (msg : string),
      pending st = [] ->
      raws <> [] ->
      let attempted := commitFormat (parseCurrencyInput (last raws "")) in
      attempted <> value (getField (fields st) key) ->
      remoteSave key attempted = Rejected msg ->
      let st' := run (Focus key :: map (Change key) raws ++ [Blur key; TimerFires])
                     st in
      getField (fields st') key = mkField attempted false true
      /\ amountFinanced st' = amountFinanced st
      /\ pending st' = []).
Proof.
  split.
  - intros st key formattedValue msg rest Hp Hr; cbn zeta.
    unfold step; rewrite Hp.
    rewrite (resumeBlur_rejected _ _ _ msg Hr).
    cbn [fields amountFinanced originalValueRef pending].
    rewrite getField_setField_same.
    repeat split.
    intros k Hk; apply getField_setField_other; exact Hk.
  - intros st key raws msg Hp Hne attempted Hdiff Hr; cbn zeta.
    change (run (Focus key :: map (Change key) raws ++ [Blur key; TimerFires]) st)
      with (run (map (Change key) raws ++ [Blur key; TimerFires])
                (handleFocus key st)).
    rewrite run_app, (run_changes _ _ _ Hne).
    unfold handleFocus; cbn [fields amountFinanced originalValueRef pending].
    cbn [run step].
    unfold handleBlur; cbn [fields amountFinanced originalValueRef pending].
    rewrite getField_setField_same; cbn [value isSaving hasError].
    fold attempted.
    destruct (String.eqb_spec attempted (value (getField (fields st) key)))
      as [Heq|_]; [contradiction|].
    rewrite Hp; cbn [app pending fields amountFinanced originalValueRef].
    rewrite (resumeBlur_rejected _ _ _ msg Hr).
    cbn [fields amountFinanced originalValueRef pending].
    rewrite setField_setField, getField_setField_same.
    repeat split.
Qed.

(** Scenario B: "9999" typed in Sales Price; the first part at the moment
    the timer fires, the second part over the whole edit. *)
Lemma rejected_save_keeps_attempt_witness :
  (let st := run [Focus salesPrice; Change salesPrice "9999"; Blur salesPrice]
                 initialState in
   let st' := step TimerFires st in
   getField (fields st') salesPrice = mkField "9999.00" false true
   /\ amountFinanced st' = amountFinanced st
   /\ (forall k, k <> salesPrice ->
                 getField (fields st') k = getField (fields st) k))
  /\
  (let st' := run (Focus salesPrice :: map (Change salesPrice) ["9999"]
                     ++ [Blur salesPrice; TimerFires]) initialState in
   getField (fields st') salesPrice = mkField "9999.00" false true
   /\ amountFinanced st' = amountFinanced initialState
   /\ pending st' = []).
Proof.
  split.
  - refine (proj1 rejected_save_keeps_attempt
              (run [Focus salesPrice; Change salesPrice "9999"; Blur salesPrice]
                   initialState)
              salesPrice "9999.00" "Sales price must be at least $10,000" [] _ _).
    + vm_compute; reflexivity.
    + vm_compute; reflexivity.
  - refine (proj2 rejected_save_keeps_attempt initialState salesPrice ["9999"]
              "Sales price must be at least $10,000" _ _ _ _).
    + reflexivity.
    + discriminate.
    + vm_compute; discriminate.
    + vm_compute; reflexivity.
Defined.

(** ** The focus snapshot *)

(** A focus event stores the current value of its field in the form's
    single snapshot cell and changes nothing else; every other event leaves
    the cell as it is. *)
Lemma focus_records_shared_snapshot :
  forall (st : State) (ev : Event),
    match ev with
    | Focus key =>
        step ev st =
        mkState (fields st) (amountFinanced st)
                (Some (value (getField (fields st) key))) (pending st)
    | _ => originalValueRef (step ev st) = originalValueRef st
    end.
Proof.
  intros st [key|key raw|key|]; cbn [step].
  - reflexivity.
  - reflexivity.
  - unfold handleBlur.
    destruct (match originalValueRef st with
              | Some original => _
              | None => false
              end); [|reflexivity].
    destruct (negb _); reflexivity.
  - destruct (pending st) as [|[key formattedValue] rest]; [reflexivity|].
    unfold resumeBlur.
    destruct (remoteSave key formattedValue); reflexivity.
Qed.

Lemma sameVisible_step_other ev st sp :
  (forall key, ev <> Focus key) -> (forall key, ev <> Blur key) ->
  sameVisible st sp -> sameVisible (step ev st) (perFieldStep ev sp).
Proof.
  intros Hfocus Hblur (Hf & Ha & Hp).
  destruct st as [f a r p], sp as [f' a' snaps p']; cbn in Hf, Ha, Hp; subst.
  destruct ev as [key|key raw|key|].
  - contradiction (Hfocus key); reflexivity.
  - repeat split.
  - contradiction (Hblur key); reflexivity.
  - cbn [perFieldStep step pending pf_fields pf_amountFinanced pf_pending].
    destruct p' as [|[key formattedValue] rest]; [repeat split|].
    cbn [fields amountFinanced originalValueRef pending].
    unfold resumeBlur; destruct (remoteSave key formattedValue); repeat split.
Qed.

Lemma sameVisible_step_Blur key st sp :
  originalValueRef st = snapshotOnFocus sp key ->
  sameVisible st sp ->
  sameVisible (step (Blur key) st) (perFieldStep (Blur key) sp).
Proof.
  intros Href (Hf & Ha & Hp).
  destruct st as [f a r p], sp as [f' a' snaps p'];
    cbn in Href, Hf, Ha, Hp; subst.
  repeat split.
Qed.

(** Along the browser's order the shared cell and the snapshots of the
    fields cannot be told apart: the two forms show the same and, whenever
    a field has the focus, the cell holds that field's own snapshot. *)
Lemma browserOrdered_simulation evs :
  forall focused st sp,
    browserOrdered focused evs = true ->
    sameVisible st sp ->
    (forall key, focused = Some key ->
                 originalValueRef st = snapshotOnFocus sp key) ->
    sameVisible (run evs st) (perFieldRun evs sp)
    /\ (forall key, focusedAfter focused evs = Some key ->
                    originalValueRef (run evs st)
                    = snapshotOnFocus (perFieldRun evs sp) key).
Proof.
  induction evs as [|ev evs IH]; intros focused st sp Hord Hsame Href;
    [split; assumption|].
  destruct ev as [key|key raw|key|]; cbn [run perFieldRun focusedAfter];
    cbn [browserOrdered] in Hord.
  - destruct focused as [other|]; [discriminate|].
    apply (IH (Some key)); [exact Hord| |].
    + destruct Hsame as (Hf & Ha & Hp); repeat split; assumption.
    + intros k Hk; injection Hk as <-.
      cbn [step perFieldStep snapshotOnFocus]; unfold handleFocus;
        cbn [originalValueRef].
      replace (Key_eqb key key) with true by (destruct key; reflexivity).
      destruct Hsame as (-> & _); reflexivity.
  - apply (IH focused); [exact Hord| |].
    + apply sameVisible_step_other; [discriminate|discriminate|exact Hsame].
    + intros k Hk; cbn [perFieldStep snapshotOnFocus].
      rewrite <- (Href k Hk); reflexivity.
  - destruct focused as [key'|]; [|discriminate].
    apply andb_true_iff in Hord as [Hkey Hord].
    apply Key_eqb_eq in Hkey; subst key'.
    apply (IH None); [exact Hord| |discriminate].
    apply sameVisible_step_Blur; [apply Href; reflexivity|exact Hsame].
  - apply (IH focused); [exact Hord| |].
    + apply sameVisible_step_other; [discriminate|discriminate|exact Hsame].
    + intros k Hk; cbn [perFieldStep snapshotOnFocus].
      rewrite <- (Href k Hk).
      exact (focus_records_shared_snapshot st TimerFires).
Qed.

(** C6: a focus event records the current value of its field; and on every
    sequence of events in the browser's order the recorded value is the
    field's own snapshot until the field's blur has used it: the form
    shows the same fields and total and has the same saves under way as
    the form that keeps one snapshot per field, written by the focus of
    that field alone and read by its blur, and while a field has the
    focus the recorded value is that field's snapshot. *)
Theorem focus_snapshot_is_per_field :
  (forall (st : State) (key : Key),
      originalValueRef (step (Focus key) st)
      = Some (value (getField (fields st) key)))
  /\ (forall evs : list Event,
        browserOrdered None evs = true ->
        let st := run evs initialState in
        let sp := perFieldRun evs perFieldInitialState in
        fields st = pf_fields sp
        /\ amountFinanced st = pf_amountFinanced sp
        /\ pending st = pf_pending sp
        /\ (forall key, focusedAfter None evs = Some key ->
                        originalValueRef st = snapshotOnFocus sp key)).
Proof.
  split; [reflexivity|].
  intros evs Hord st sp.
  destruct (browserOrdered_simulation evs None initialState perFieldInitialState
              Hord) as ((Hf & Ha & Hp) & Href).
  - repeat split.
  - discriminate.
  - repeat split; assumption.
Qed.

(** Sales Price edited, blurred and rejected, then Down Payment focused and
    edited: the cell holds the snapshot of Down Payment, taken at its
    focus. *)
Lemma focus_snapshot_is_per_field_witness :
  let evs := [Focus salesPrice; Change salesPrice "9999"; Blur salesPrice;
              Focus downPayment; TimerFires; Change downPayment "3000"] in
  let st := run evs initialState in
  let sp := perFieldRun evs perFieldInitialState in
  browserOrdered None evs = true
  /\ fields st = pf_fields sp
  /\ amountFinanced st = pf_amountFinanced sp
  /\ pending st = pf_pending sp
  /\ originalValueRef st = snapshotOnFocus sp downPayment
  /\ snapshotOnFocus sp downPayment = Some "2500.00"
  /\ snapshotOnFocus sp salesPrice = Some "27537.00".
Proof.
  cbn zeta.
  destruct (proj2 focus_snapshot_is_per_field
              [Focus salesPrice; Change salesPrice "9999"; Blur salesPrice;
               Focus downPayment; TimerFires; Change downPayment "3000"]
              eq_refl) as (Hf & Ha & Hp & Href).
  split; [reflexivity|].
  split; [exact Hf|].
  split; [exact Ha|].
  split; [exact Hp|].
  split; [apply Href; reflexivity|].
  split; vm_compute; reflexivity.
Defined.

(** The order matters.  Were Down Payment focused before Sales Price is
    blurred, which no browser does, the cell would hold the value of Down
    Payment and the blur of the untouched Sales Price would issue a save,
    where the form with one snapshot per field issues none. *)
Lemma focus_snapshot_overwritten_by_other_field :
  let st := run [Focus salesPrice; Focus downPayment] initialState in
  browserOrdered None [Focus salesPrice; Focus downPayment; Blur salesPrice]
  = false
  /\ originalValueRef (step (Focus salesPrice) initialState) = Some "27537.00"
  /\ originalValueRef st = Some "2500.00"
  /\ pending (step (Blur salesPrice) st) = [(salesPrice, "27537.00")]
  /\ isSaving (getField (fields (step (Blur salesPrice) st)) salesPrice) = true
  /\ pf_pending (perFieldRun [Focus salesPrice; Focus downPayment; Blur salesPrice]
                             perFieldInitialState) = [].
Proof. vm_compute. repeat split; reflexivity. Qed.

(** ** Blur without a numeric change *)

(** C2 as stated fails: the short-circuit leaves the flags alone.  A field
    whose save was rejected, focused and blurred again without an edit,
    issues no save and keeps its error flag up. *)
Lemma noop_blur_keeps_error_flag :
  let st0 := run [Focus salesPrice; Change salesPrice "9999"; Blur salesPrice;
                  TimerFires] initialState in
  let st1 := step (Focus salesPrice) st0 in
  let st2 := step (Blur salesPrice) st1 in
  originalValueRef st1
    = Some (commitFormat (value (getField (fields st1) salesPrice)))
  /\ pending st2 = []
  /\ hasError (getField (fields st2) salesPrice) = true.
Proof. vm_compute. repeat split; reflexivity. Qed.

(** C2, amended: when the formatted value of the field equals the focus
    snapshot, the blur issues no save, leaves both flags of the field as
    they were (an idle field stays idle), and leaves the formatted value
    in the field: the state is not written at all when the value is
    already formatted.  Other fields, the total and the snapshot are
    untouched. *)
Theorem noop_blur_short_circuit :
  forall (st : State) (key : Key),
    let currentValue := value (getField (fields st) key) in
    originalValueRef st = Some (commitFormat currentValue) ->
    let st' := step (Blur key) st in
    pending st' = pending st
    /\ isSaving (getField (fields st') key) = isSaving (getField (fields st) key)
    /\ hasError (getField (fields st') key) = hasError (getField (fields st) key)
    /\ value (getField (fields st') key) = commitFormat currentValue
    /\ (currentValue = commitFormat currentValue -> st' = st)
    /\ (forall k, k <> key -> getField (fields st') k = getField (fields st) k)
    /\ amountFinanced st' = amountFinanced st
    /\ originalValueRef st' = originalValueRef st.
Proof.
  intros st key currentValue Href; cbn zeta.
  unfold step, handleBlur; fold currentValue; rewrite Href.
  rewrite String.eqb_refl.
  destruct (String.eqb_spec currentValue (commitFormat currentValue)) as [Heq|Hne];
    cbn [negb].
  - repeat split; auto.
  - cbn [fields amountFinanced originalValueRef pending].
    rewrite getField_setField_same; cbn [value isSaving hasError].
    repeat split; auto.
    + intros Heq; contradiction.
    + intros k Hk; apply getField_setField_other; exact Hk.
Qed.

(** Sales Price focused, retyped as "27537" and blurred: reformatted, not
    saved. *)
Lemma noop_blur_short_circuit_witness :
  let st := run [Focus salesPrice; Change salesPrice "27537"] initialState in
  let st' := step (Blur salesPrice) st in
  pending st' = pending st
  /\ isSaving (getField (fields st') salesPrice)
     = isSaving (getField (fields st) salesPrice)
  /\ hasError (getField (fields st') salesPrice)
     = hasError (getField (fields st) salesPrice)
  /\ value (getField (fields st') salesPrice) = commitFormat "27537"
  /\ ("27537" = commitFormat "27537" -> st' = st)
  /\ (forall k, k <> salesPrice ->
                getField (fields st') k = getField (fields st) k)
  /\ amountFinanced st' = amountFinanced st
  /\ originalValueRef st' = originalValueRef st.
Proof.
  refine (noop_blur_short_circuit
            (run [Focus salesPrice; Change salesPrice "27537"] initialState)
            salesPrice _).
  vm_compute; reflexivity.
Defined.

(** ** The total *)

(** C1 as stated fails: the recomputed total is taken from the values the
    fields hold at that moment.  With a rejected "9999.00" still in Sales
    Price, a successful save of Down Payment recomputes the total from
    9999.00 and 3000.00, not from the last saved Sales Price 27537.00. *)
Lemma total_uses_value_of_field_in_error :
  let evs := [Focus salesPrice; Change salesPrice "9999"; Blur salesPrice;
              TimerFires;
              Focus downPayment; Change downPayment "3000"; Blur downPayment;
              TimerFires] in
  let st := run evs initialState in
  let led := runLedger evs initialState initialLedger in
  hasError (getField (fields st) salesPrice) = true
  /\ led salesPrice = "27537.00"
  /\ led downPayment = "3000.00"
  /\ calculateTotal (fieldsOfLedger led) = "$24,537.00"
  /\ amountFinanced st = "$6,999.00".
Proof. vm_compute. repeat split; reflexivity. Qed.

(** C1, amended: the total changes only when a timer fires for a save that
    succeeds; it is then the total of the values that all five fields hold
    at that moment, whatever their flags, and these values are the ones
    they held just before. *)
Theorem total_recomputed_on_success_from_current_values :
  forall (st : State) (ev : Event),
    let st' := step ev st in
    if commitsSuccessfully ev st
    then amountFinanced st' = calculateTotal (fields st')
         /\ (forall k, value (getField (fields st') k)
                       = value (getField (fields st) k))
    else amountFinanced st' = amountFinanced st.
Proof.
  intros st [key|key raw|key|]; cbn zeta; cbn [step commitsSuccessfully].
  - reflexivity.
  - reflexivity.
  - unfold handleBlur.
    destruct (match originalValueRef st with
              | Some original => _
              | None => false
              end); [|reflexivity].
    destruct (negb _); reflexivity.
  - destruct (pending st) as [|[key formattedValue] rest]; [reflexivity|].
    unfold resumeBlur.
    destruct (remoteSave key formattedValue);
      cbn [fields amountFinanced originalValueRef pending].
    + split; [reflexivity|].
      intros k; destruct key, k; reflexivity.
    + reflexivity.
Qed.

(** ** Strings of digits *)

Section StringFacts.

Variable p : ascii -> bool.

Lemma forallb_app s t :
  JSString.forallb p (s ++ t) = JSString.forallb p s && JSString.forallb p t.
Proof.
  induction s as [|c s IH]; simpl; [reflexivity|].
  rewrite IH, andb_assoc; reflexivity.
Qed.

Lemma forallb_replicate n c :
  p c = true -> JSString.forallb p (JSString.replicate n c) = true.
Proof. intros Hc; induction n as [|n IH]; simpl; [|rewrite Hc, IH]; reflexivity. Qed.

Lemma forallb_take n s :
  JSString.forallb p s = true -> JSString.forallb p (JSString.take n s) = true.
Proof.
  revert s; induction n as [|n IH]; intros [|c s]; simpl; auto.
  intros H; apply andb_true_iff in H as [Hc Hs].
  rewrite Hc, (IH _ Hs); reflexivity.
Qed.

Lemma forallb_drop n s :
  JSString.forallb p s = true -> JSString.forallb p (JSString.drop n s) = true.
Proof.
  revert s; induction n as [|n IH]; intros [|c s]; simpl; auto.
  intros H; apply andb_true_iff in H as [_ Hs]; auto.
Qed.

(** A string without the separator is its own single part. *)
Lemma split_no_separator sep s :
  p sep = false -> JSString.forallb p s = true -> JSString.split sep s = [s].
Proof.
  intros Hsep; induction s as [|c s IH]; simpl; [reflexivity|].
  intros H; apply andb_true_iff in H as [Hc Hs].
  destruct (Ascii.eqb_spec c sep) as [->|_]; [congruence|].
  rewrite (IH Hs); reflexivity.
Qed.

Lemma split_at_separator sep s t :
  p sep = false -> JSString.forallb p s = true ->
  JSString.split sep (s ++ String sep t) = s :: JSString.split sep t.
Proof.
  intros Hsep; induction s as [|c s IH]; simpl.
  - intros _; rewrite Ascii.eqb_refl; reflexivity.
  - intros H; apply andb_true_iff in H as [Hc Hs].
    destruct (Ascii.eqb_spec c sep) as [->|_]; [congruence|].
    rewrite (IH Hs); reflexivity.
Qed.

End StringFacts.

Lemma forallb_weaken (p q : ascii -> bool) s :
  (forall c, p c = true -> q c = true) ->
  JSString.forallb p s = true -> JSString.forallb q s = true.
Proof.
  intros Hpq; induction s as [|c s IH]; simpl; [reflexivity|].
  intros H; apply andb_true_iff in H as [Hc Hs].
  rewrite (Hpq _ Hc), (IH Hs); reflexivity.
Qed.

Lemma length_app s t :
  String.length (s ++ t) = (String.length s + String.length t)%nat.
Proof. induction s as [|c s IH]; simpl; [|rewrite IH]; reflexivity. Qed.

Lemma length_replicate n c : String.length (JSString.replicate n c) = n.
Proof. induction n as [|n IH]; simpl; [|rewrite IH]; reflexivity. Qed.

Lemma length_take n s :
  (n <= String.length s)%nat -> String.length (JSString.take n s) = n.
Proof.
  revert s; induction n as [|n IH]; intros [|c s]; simpl; intros H;
    try reflexivity; try lia.
  rewrite IH by lia; reflexivity.
Qed.

Lemma length_drop n s :
  String.length (JSString.drop n s) = (String.length s - n)%nat.
Proof. revert s; induction n as [|n IH]; intros [|c s]; simpl; auto. Qed.

Lemma take_drop n s : JSString.take n s ++ JSString.drop n s = s.
Proof.
  revert s; induction n as [|n IH]; intros [|c s]; simpl; try reflexivity.
  rewrite IH; reflexivity.
Qed.

(** ** [parseCurrencyInput] *)

Section SplitFacts.

Variable sep : ascii.

Lemma split_length s :
  List.length (JSString.split sep s) = S (JSString.count sep s).
Proof.
  induction s as [|c s IH]; [reflexivity|].
  cbn [JSString.split JSString.count].
  destruct (Ascii.eqb c sep); simpl; [rewrite IH; reflexivity|].
  destruct (JSString.split sep s); simpl in *; lia.
Qed.

Lemma split_parts_no_separator s :
  Forall (fun part => JSString.count sep part = 0%nat) (JSString.split sep s).
Proof.
  induction s as [|c s IH]; cbn [JSString.split].
  - constructor; [reflexivity|constructor].
  - destruct (Ascii.eqb c sep) eqn:Hc.
    + constructor; [reflexivity|exact IH].
    + destruct (JSString.split sep s) as [|part parts].
      * constructor; [simpl; rewrite Hc; reflexivity|constructor].
      * inversion IH; subst; constructor; [|assumption].
        simpl; rewrite Hc; assumption.
Qed.

Lemma split_parts_forallb p s :
  JSString.forallb p s = true ->
  Forall (fun part => JSString.forallb p part = true) (JSString.split sep s).
Proof.
  induction s as [|c s IH]; cbn [JSString.split JSString.forallb].
  - intros _; constructor; [reflexivity|constructor].
  - intros H; apply andb_true_iff in H as [Hc Hs]; specialize (IH Hs).
    destruct (Ascii.eqb c sep).
    + constructor; [reflexivity|exact IH].
    + destruct (JSString.split sep s) as [|part parts].
      * constructor; [simpl; rewrite Hc; reflexivity|constructor].
      * inversion IH; subst; constructor; [|assumption].
        simpl; rewrite Hc; assumption.
Qed.

Lemma split_count_0 s :
  JSString.count sep s = 0%nat -> JSString.split sep s = [s].
Proof.
  induction s as [|c s IH]; [reflexivity|].
  cbn [JSString.split JSString.count].
  destruct (Ascii.eqb c sep); [discriminate|].
  intros H; rewrite (IH H); reflexivity.
Qed.

(** Two parts are the text before and after the only separator. *)
Lemma split_two s a b :
  JSString.split sep s = [a; b] -> s = a ++ String sep b.
Proof.
  revert a; induction s as [|c s IH]; intros a; cbn [JSString.split];
    [discriminate|].
  destruct (Ascii.eqb_spec c sep) as [->|Hc].
  - intros H; injection H as <- H.
    pose proof (split_length s) as Hl; rewrite H in Hl; simpl in Hl.
    rewrite split_count_0 in H by lia.
    injection H as <-; reflexivity.
  - destruct (JSString.split sep s) as [|part parts] eqn:Hs; [discriminate|].
    intros H; injection H as <- ->.
    rewrite (IH part eq_refl); reflexivity.
Qed.

Lemma count_app s t :
  JSString.count sep (s ++ t)
  = (JSString.count sep s + JSString.count sep t)%nat.
Proof. induction s as [|c s IH]; simpl; [|rewrite IH]; lia. Qed.

Lemma count_join parts :
  Forall (fun part => JSString.count sep part = 0%nat) parts ->
  JSString.count sep (JSString.join parts) = 0%nat.
Proof.
  induction 1 as [|part parts Hp _ IH]; [reflexivity|].
  simpl; rewrite count_app, Hp, IH; reflexivity.
Qed.

Lemma count_take n s :
  JSString.count sep s = 0%nat -> JSString.count sep (JSString.take n s) = 0%nat.
Proof.
  revert s; induction n as [|n IH]; intros [|c s]; simpl; auto.
  destruct (Ascii.eqb c sep); [discriminate|]. simpl; apply IH.
Qed.

Lemma afterFirst_no_separator s :
  JSString.count sep s = 0%nat -> JSString.afterFirst sep s = "".
Proof.
  induction s as [|c s IH]; simpl; [reflexivity|].
  destruct (Ascii.eqb c sep); [discriminate|]. exact IH.
Qed.

Lemma afterFirst_app s t :
  JSString.count sep s = 0%nat ->
  JSString.afterFirst sep (s ++ String sep t) = t.
Proof.
  induction s as [|c s IH]; simpl.
  - rewrite Ascii.eqb_refl; reflexivity.
  - destruct (Ascii.eqb c sep); [discriminate|]. exact IH.
Qed.

End SplitFacts.

Lemma forallb_join p parts :
  Forall (fun part => JSString.forallb p part = true) parts ->
  JSString.forallb p (JSString.join parts) = true.
Proof.
  induction 1 as [|part parts Hp _ IH]; [reflexivity|].
  simpl; rewrite forallb_app, Hp, IH; reflexivity.
Qed.

Lemma forallb_filter p s : JSString.forallb p (JSString.filter p s) = true.
Proof.
  induction s as [|c s IH]; simpl; [reflexivity|].
  destruct (p c) eqn:Hc; simpl; [rewrite Hc|]; exact IH.
Qed.

Lemma filter_id p s : JSString.forallb p s = true -> JSString.filter p s = s.
Proof.
  induction s as [|c s IH]; simpl; [reflexivity|].
  intros H; apply andb_true_iff in H as [Hc Hs].
  rewrite Hc, (IH Hs); reflexivity.
Qed.

Lemma length_take_le n s : (String.length (JSString.take n s) <= n)%nat.
Proof.
  revert s; induction n as [|n IH]; intros [|c s]; simpl; try lia.
  specialize (IH s); lia.
Qed.

(** The three outcomes of [parseCurrencyInput], by the number of parts. *)
Lemma parseCurrencyInput_cases input :
  let numericString := JSString.stripNonNumeric input in
  (exists p0 p1 p2 rest,
      JSString.split "." numericString = p0 :: p1 :: p2 :: rest
      /\ parseCurrencyInput input = p0 ++ String "." (JSString.join (p1 :: p2 :: rest)))
  \/ (exists p0 p1,
      JSString.split "." numericString = [p0; p1]
      /\ (2 < String.length p1)%nat
      /\ parseCurrencyInput input = p0 ++ String "." (JSString.take 2 p1))
  \/ (exists p0 p1,
      JSString.split "." numericString = [p0; p1]
      /\ (String.length p1 <= 2)%nat
      /\ parseCurrencyInput input = numericString)
  \/ (JSString.split "." numericString = [numericString]
      /\ JSString.count "." numericString = 0%nat
      /\ parseCurrencyInput input = numericString).
Proof.
  cbn zeta; unfold parseCurrencyInput.
  set (ns := JSString.stripNonNumeric input).
  pose proof (split_length "." ns) as Hlen.
  destruct (JSString.split "." ns) as [|p0 [|p1 [|p2 rest]]] eqn:Hs;
    simpl in Hlen; try lia.
  - right; right; right.
    assert (Hc : JSString.count "." ns = 0%nat) by lia.
    rewrite (split_count_0 _ _ Hc) in Hs; injection Hs as <-.
    split; [reflexivity|split; [exact Hc|reflexivity]].
  - right. change (2 <? List.length [p0; p1])%nat with false.
    cbn [nth_error nth].
    destruct (Nat.ltb_spec 2 (String.length p1)) as [Hlt|Hge].
    + left; exists p0, p1; repeat split; [exact Hlt|].
      destruct p1; [simpl in Hlt; lia|reflexivity].
    + right; left; exists p0, p1; repeat split; [exact Hge|].
      rewrite andb_false_r; reflexivity.
  - left; exists p0, p1, p2, rest; split; reflexivity.
Qed.

Lemma isNumericChar_point : JSString.isNumericChar "." = true.
Proof. reflexivity. Qed.

(** The result holds digits and points only. *)
Lemma parseCurrencyInput_numeric_chars input :
  JSString.forallb JSString.isNumericChar (parseCurrencyInput input) = true.
Proof.
  pose proof (forallb_filter JSString.isNumericChar input) as Hns.
  fold (JSString.stripNonNumeric input) in Hns.
  pose proof (split_parts_forallb "." _ _ Hns) as Hparts.
  destruct (parseCurrencyInput_cases input)
    as [(p0 & p1 & p2 & rest & Hs & ->)
       |[(p0 & p1 & Hs & _ & ->)
        |[(p0 & p1 & _ & _ & ->)|(_ & _ & ->)]]]; try exact Hns.
  - rewrite Hs in Hparts; inversion Hparts as [|? ? H0 Hrest]; subst.
    rewrite forallb_app, H0; cbn [JSString.forallb andb].
    rewrite isNumericChar_point; apply forallb_join, Hrest.
  - rewrite Hs in Hparts; inversion Hparts as [|? ? H0 Hrest]; subst.
    inversion Hrest as [|? ? H1 _]; subst.
    rewrite forallb_app, H0; cbn [JSString.forallb andb].
    rewrite isNumericChar_point; apply forallb_take, H1.
Qed.

(** The result holds at most one point. *)
Lemma parseCurrencyInput_one_point input :
  (JSString.count "." (parseCurrencyInput input) <= 1)%nat.
Proof.
  pose proof (split_parts_no_separator "." (JSString.stripNonNumeric input))
    as Hparts.
  pose proof (split_length "." (JSString.stripNonNumeric input)) as Hlen.
  destruct (parseCurrencyInput_cases input)
    as [(p0 & p1 & p2 & rest & Hs & ->)
       |[(p0 & p1 & Hs & _ & ->)
        |[(p0 & p1 & Hs & _ & ->)|(_ & Hc & ->)]]].
  - rewrite Hs in Hparts; inversion Hparts as [|? ? H0 Hrest]; subst.
    rewrite count_app, H0; cbn [JSString.count].
    rewrite Ascii.eqb_refl, (count_join _ _ Hrest); lia.
  - rewrite Hs in Hparts; inversion Hparts as [|? ? H0 Hrest]; subst.
    inversion Hrest as [|? ? H1 _]; subst.
    rewrite count_app, H0; cbn [JSString.count].
    rewrite Ascii.eqb_refl, (count_take _ _ _ H1); lia.
  - rewrite Hs in Hlen; simpl in Hlen; lia.
  - lia.
Qed.

(** When the input holds at most one point, at most two digits follow the
    point of the result. *)
Lemma parseCurrencyInput_two_digits_one_point input :
  (JSString.count "." (JSString.stripNonNumeric input) <= 1)%nat ->
  (String.length (fractionDigits (parseCurrencyInput input)) <= 2)%nat.
Proof.
  intros Hone; unfold fractionDigits.
  pose proof (split_parts_no_separator "." (JSString.stripNonNumeric input))
    as Hparts.
  pose proof (split_length "." (JSString.stripNonNumeric input)) as Hlen.
  destruct (parseCurrencyInput_cases input)
    as [(p0 & p1 & p2 & rest & Hs & ->)
       |[(p0 & p1 & Hs & _ & ->)
        |[(p0 & p1 & Hs & Hle & ->)|(_ & Hc & ->)]]].
  - rewrite Hs in Hlen; simpl in Hlen; lia.
  - rewrite Hs in Hparts; inversion Hparts as [|? ? H0 _]; subst.
    rewrite (afterFirst_app _ _ _ H0); apply length_take_le.
  - rewrite Hs in Hparts; inversion Hparts as [|? ? H0 _]; subst.
    rewrite (split_two _ _ _ _ Hs), (afterFirst_app _ _ _ H0); exact Hle.
  - rewrite (afterFirst_no_separator _ _ Hc); simpl; lia.
Qed.

(** A canonical value with at most one point and at most two digits after
    it is left as it is. *)
Lemma parseCurrencyInput_fixes_canonical v :
  JSString.forallb JSString.isNumericChar v = true ->
  (JSString.count "." v <= 1)%nat ->
  (String.length (fractionDigits v) <= 2)%nat ->
  parseCurrencyInput v = v.
Proof.
  intros Hnum Hone Hfrac.
  pose proof (filter_id _ _ Hnum) as Hid; fold (JSString.stripNonNumeric v) in Hid.
  pose proof (split_parts_no_separator "." v) as Hparts.
  pose proof (split_length "." v) as Hlen.
  destruct (parseCurrencyInput_cases v)
    as [(p0 & p1 & p2 & rest & Hs & ->)
       |[(p0 & p1 & Hs & Hlt & ->)
        |[(p0 & p1 & _ & _ & ->)|(_ & _ & ->)]]];
    rewrite Hid in *; try reflexivity.
  - rewrite Hs in Hlen; simpl in Hlen; lia.
  - rewrite Hs in Hparts; inversion Hparts as [|? ? H0 _]; subst.
    unfold fractionDigits in Hfrac.
    rewrite (split_two _ _ _ _ Hs), (afterFirst_app _ _ _ H0) in Hfrac; lia.
Qed.

(** A second pass changes nothing exactly when the first pass left at most
    two digits after the point; in particular when the input holds at most
    one point. *)
Lemma parseCurrencyInput_idempotent_iff input :
  parseCurrencyInput (parseCurrencyInput input) = parseCurrencyInput input
  <-> (String.length (fractionDigits (parseCurrencyInput input)) <= 2)%nat.
Proof.
  pose proof (parseCurrencyInput_numeric_chars input) as Hnum.
  pose proof (parseCurrencyInput_one_point input) as Hone.
  split.
  - intros Heq; rewrite <- Heq.
    apply parseCurrencyInput_two_digits_one_point.
    unfold JSString.stripNonNumeric; rewrite (filter_id _ _ Hnum); exact Hone.
  - intros Hfrac; apply parseCurrencyInput_fixes_canonical; assumption.
Qed.

Lemma parseCurrencyInput_idempotent_one_point input :
  (JSString.count "." (JSString.stripNonNumeric input) <= 1)%nat ->
  parseCurrencyInput (parseCurrencyInput input) = parseCurrencyInput input.
Proof.
  intros H; apply parseCurrencyInput_idempotent_iff,
              parseCurrencyInput_two_digits_one_point, H.
Qed.

(** C5: the limit of two digits after the point is missed on input with a
    second point.  The branch
    that merges the parts after the first point returns before the limit of
    two decimal places is applied: of "1.2.345" the four digits "2345"
    stay after the point. *)
Theorem parseCurrencyInput_keeps_merged_fraction :
  parseCurrencyInput "1.2.345" = "1.2345"
  /\ fractionDigits (parseCurrencyInput "1.2.345") = "2345"
  /\ (2 < String.length (fractionDigits (parseCurrencyInput "1.2.345")))%nat.
Proof. vm_compute. repeat split; lia. Qed.

(** C4: by the same early return, a second pass over the result of
    "1.2.345" cuts it to two decimal places: the two passes differ. *)
Theorem parseCurrencyInput_second_pass_differs :
  parseCurrencyInput "1.2.345" = "1.2345"
  /\ parseCurrencyInput (parseCurrencyInput "1.2.345") = "1.23"
  /\ parseCurrencyInput (parseCurrencyInput "1.2.345")
     <> parseCurrencyInput "1.2.345".
Proof. vm_compute. repeat split; discriminate. Qed.

(** ** Decimal digits and [toFixed] *)

Lemma isDigit_not_point : JSString.isDigit "." = false.
Proof. reflexivity. Qed.

Lemma isDigitOrComma_not_point : isDigitOrComma "." = false.
Proof. reflexivity. Qed.

Lemma string_of_uint_digits d :
  JSString.forallb JSString.isDigit (NilEmpty.string_of_uint d) = true.
Proof. induction d; simpl; auto. Qed.

Lemma decimalString_digits n :
  JSString.forallb JSString.isDigit (decimalString n) = true.
Proof.
  unfold decimalString, NilZero.string_of_uint.
  destruct (N.to_uint (Z.to_N n)); try reflexivity;
    apply (string_of_uint_digits (_ u)).
Qed.

Lemma decimalString_nonempty n : (0 < String.length (decimalString n))%nat.
Proof.
  unfold decimalString, NilZero.string_of_uint.
  destruct (N.to_uint (Z.to_N n)); simpl; lia.
Qed.

(** The two halves of [fixedDigits]: at least one integer digit, exactly
    two fraction digits. *)
Lemma fixedDigits_shape n :
  let '(a, b) := fixedDigits n in
  (0 < String.length a)%nat
  /\ JSString.forallb JSString.isDigit a = true
  /\ String.length b = 2%nat
  /\ JSString.forallb JSString.isDigit b = true.
Proof.
  unfold fixedDigits.
  pose proof (decimalString_digits n) as Hd.
  pose proof (decimalString_nonempty n) as Hl.
  set (m := decimalString n) in *.
  set (m' := if (String.length m <=? 2)%nat
             then JSString.replicate (3 - String.length m) "0" ++ m else m).
  assert (Hd' : JSString.forallb JSString.isDigit m' = true).
  { unfold m'; destruct (String.length m <=? 2)%nat; [|exact Hd].
    rewrite forallb_app, forallb_replicate, Hd; reflexivity. }
  assert (Hl' : (3 <= String.length m')%nat).
  { unfold m'; destruct (Nat.leb_spec (String.length m) 2); [|lia].
    rewrite length_app, length_replicate; lia. }
  repeat split.
  - rewrite length_take; lia.
  - apply forallb_take; exact Hd'.
  - rewrite length_drop; lia.
  - apply forallb_drop; exact Hd'.
Qed.

Lemma length_pos_not_empty s : (0 < String.length s)%nat -> String.eqb s "" = false.
Proof. destruct s; simpl; [lia|reflexivity]. Qed.

Lemma insertPoint2_matches n : matchesFixed2 (insertPoint2 n) = true.
Proof.
  unfold insertPoint2, matchesFixed2.
  pose proof (fixedDigits_shape n) as H.
  destruct (fixedDigits n) as [a b]; destruct H as (Ha & Hda & Hb & Hdb).
  change (a ++ "." ++ b) with (a ++ String "." b).
  rewrite (split_at_separator _ _ _ _ isDigit_not_point Hda).
  rewrite (split_no_separator _ _ _ isDigit_not_point Hdb).
  rewrite (length_pos_not_empty _ Ha), Hda, Hb, Hdb; reflexivity.
Qed.

(** ** [commitFormat] *)

(** C9 as stated fails: a canonical value of 22 digits parses to 10^21,
    which [toFixed] prints in exponential notation. *)
Lemma commitFormat_exponential_at_1e21 :
  JSString.forallb JSString.isNumericChar "1000000000000000000000" = true
  /\ commitFormat "1000000000000000000000" = "1e+21"
  /\ matchesFixed2 (commitFormat "1000000000000000000000") = false.
Proof. vm_compute. repeat split; reflexivity. Qed.

(** A string of the shape [^\d+\.\d{2}$] holds digits and points only. *)
Lemma matchesFixed2_numeric_chars s :
  matchesFixed2 s = true -> JSString.forallb JSString.isNumericChar s = true.
Proof.
  unfold matchesFixed2.
  destruct (JSString.split "." s) as [|a [|b [|c rest]]] eqn:Hs;
    try discriminate.
  intros H.
  apply andb_true_iff in H as [H Hb]; apply andb_true_iff in H as [H _].
  apply andb_true_iff in H as [_ Ha].
  rewrite (split_two _ _ _ _ Hs), forallb_app; cbn [JSString.forallb].
  rewrite (forallb_weaken JSString.isDigit JSString.isNumericChar a),
          (forallb_weaken JSString.isDigit JSString.isNumericChar b);
    try assumption; try reflexivity;
    intros c Hc; unfold JSString.isNumericChar; rewrite Hc; reflexivity.
Qed.

(** The exponential notation never has that shape. *)
Lemma toStringLarge_not_fixed sign x X :
  matchesFixed2 (sign ++ toStringLarge x X) = false.
Proof.
  apply not_true_is_false; intros H.
  apply matchesFixed2_numeric_chars in H.
  rewrite forallb_app in H; apply andb_true_iff in H as [_ H].
  revert H; unfold toStringLarge.
  destruct (shortest x X _ _) as [s k].
  destruct (if s =? 10 ^ k then _ else _) as [s' n].
  destruct (decimalString s') as [|c [|c' rest]].
  - discriminate.
  - cbn [append JSString.forallb]; rewrite andb_false_r; discriminate.
  - change (String c ("." ++ String c' rest) ++ "e" ++ "+" ++ decimalString (n - 1))
      with (String c (String "." (String c' rest ++ String "e" ("+" ++ decimalString (n - 1))))).
    cbn [JSString.forallb]; rewrite forallb_app; cbn [JSString.forallb].
    change (JSString.isNumericChar "e") with false.
    rewrite !andb_false_r; discriminate.
Qed.

Lemma minus_not_fixed s : matchesFixed2 ("-" ++ s) = false.
Proof.
  apply not_true_is_false; intros H.
  apply matchesFixed2_numeric_chars in H; discriminate.
Qed.

(** C9, amended: input that does not parse is formatted as "0.00"; and
    the result has the shape [^\d+\.\d{2}$] (digits, a point, two digits,
    no grouping) exactly when the parsed number, with zero for an
    unparsable input, is non-negative and below 10^21. *)
Theorem commitFormat_fixed_below_1e21 :
  forall v : string,
    (isNaN (parseFloat v) = true -> commitFormat v = "0.00")
    /\ (matchesFixed2 (commitFormat v) = true
        <-> belowInteger (orZero (parseFloat v)) (10 ^ 21) = true).
Proof.
  intros v; unfold commitFormat; split.
  - destruct (parseFloat v); simpl; try discriminate; reflexivity.
  - destruct (parseFloat v) as [s|s| |s m e]; cbn [orZero zero belowInteger];
      try (split; reflexivity).
    + destruct s; split; discriminate.
    + cbn [toFixed2]; destruct s.
      * rewrite minus_not_fixed; split; discriminate.
      * destruct (magnitudeGe m e (10 ^ 21)); cbn [negb].
        -- rewrite (toStringLarge_not_fixed ""); split; discriminate.
        -- split; [reflexivity|]. intros _; apply insertPoint2_matches.
Qed.

Lemma commitFormat_fixed_below_1e21_witness :
  (isNaN (parseFloat "") = true /\ commitFormat "" = "0.00")
  /\ (belowInteger (orZero (parseFloat "1234.5")) (10 ^ 21) = true
      /\ matchesFixed2 (commitFormat "1234.5") = true).
Proof.
  split; split.
  - reflexivity.
  - apply (proj1 (commitFormat_fixed_below_1e21 "")); reflexivity.
  - vm_compute; reflexivity.
  - apply (proj2 (commitFormat_fixed_below_1e21 "1234.5")); vm_compute; reflexivity.
Defined.

(** ** Rounding never yields NaN *)

Lemma signedAs_not_NaN sg x : signedAs sg x -> isNaN x = false.
Proof. destruct x; simpl; intros H; [reflexivity|reflexivity|contradiction|reflexivity]. Qed.

Lemma signedAs_neg sg x : signedAs sg x -> signedAs (negb sg) (neg x).
Proof. destruct x; simpl; intros H; subst; auto. Qed.

Lemma shr_1_nonneg mrs : 0 <= shr_m mrs -> 0 <= shr_m (shr_1 mrs).
Proof.
  destruct mrs as [m r s]; simpl.
  destruct m as [|[q|q|]|[q|q|]]; simpl; lia.
Qed.

Lemma iter_shr_1_nonneg n mrs :
  0 <= shr_m mrs -> 0 <= shr_m (iter_pos shr_1 n mrs).
Proof.
  revert mrs; induction n as [n IH|n IH|]; intros mrs H; simpl.
  - apply IH, IH, shr_1_nonneg, H.
  - apply IH, IH, H.
  - apply shr_1_nonneg, H.
Qed.

Lemma shr_fexp_nonneg m e l :
  0 <= m -> 0 <= shr_m (fst (shr_fexp prec emax m e l)).
Proof.
  intros H; unfold shr_fexp, shr.
  assert (H0 : 0 <= shr_m (shr_record_of_loc m l))
    by (destruct l as [|[| |]]; exact H).
  destruct (fexp prec emax (Zdigits2 m + e) - e); simpl; auto.
  apply iter_shr_1_nonneg, H0.
Qed.

Lemma round_nearest_even_nonneg m l : 0 <= m -> 0 <= round_nearest_even m l.
Proof.
  intros H; destruct l as [|[| |]]; simpl; try lia.
  destruct (Z.even m); lia.
Qed.

Lemma binary_round_aux_signed sg mx ex lx :
  0 <= mx -> signedAs sg (binary_round_aux prec emax sg mx ex lx).
Proof.
  intros H; unfold binary_round_aux.
  pose proof (shr_fexp_nonneg mx ex lx H) as H1.
  destruct (shr_fexp prec emax mx ex lx) as [mrs' e']; simpl in H1.
  pose proof (shr_fexp_nonneg _ e' loc_Exact
                (round_nearest_even_nonneg _ (loc_of_shr_record mrs') H1)) as H2.
  destruct (shr_fexp prec emax _ e' loc_Exact) as [mrs'' e'']; simpl in H2.
  destruct (shr_m mrs'') as [|q|q]; [exact eq_refl| |lia].
  destruct (e'' <=? emax - prec); exact eq_refl.
Qed.

Lemma ofRatio_signed n d : 0 <= n -> 0 < d -> signedAs false (ofRatio n d).
Proof.
  intros Hn Hd; unfold ofRatio.
  destruct n as [|q|q]; [exact eq_refl| |lia].
  unfold SFdiv_core_binary.
  set (s := 0 - 0 - _).
  set (m' := match s with Z.pos _ => Z.shiftl (Z.pos q) s | 0 => Z.pos q
                        | Z.neg _ => 0 end).
  assert (Hm : 0 <= m').
  { unfold m'; destruct s; try lia. apply Z.shiftl_nonneg; lia. }
  pose proof (Z_div_mod m' d ltac:(lia)) as Hdiv.
  destruct (Z.div_eucl m' d) as [quo r].
  apply binary_round_aux_signed.
  destruct Hdiv as [Heq Hr]; nia.
Qed.

Lemma ofDecimal_signed m e10 : 0 <= m -> signedAs false (ofDecimal m e10).
Proof.
  intros Hm; unfold ofDecimal.
  destruct (Z.leb_spec 0 e10).
  - apply ofRatio_signed; [|lia].
    apply Z.mul_nonneg_nonneg; [exact Hm|]. apply Z.pow_nonneg; lia.
  - apply ofRatio_signed; [exact Hm|]. apply Z.pow_pos_nonneg; lia.
Qed.

(** ** [parseFloat] on text that starts with a digit *)

Lemma digitValue_nonneg c : JSString.isDigit c = true -> 0 <= digitValue c.
Proof.
  unfold JSString.isDigit, digitValue; cbv zeta; intros H.
  apply andb_true_iff in H as [H _]; apply N.leb_le in H.
  revert H; generalize (N_of_ascii c); intros n H; lia.
Qed.

Lemma digitsValueFrom_nonneg s acc :
  JSString.forallb JSString.isDigit s = true -> 0 <= acc ->
  0 <= digitsValueFrom acc s.
Proof.
  revert acc; induction s as [|c s IH]; intros acc H Hacc;
    cbn [digitsValueFrom]; [exact Hacc|].
  simpl in H; apply andb_true_iff in H as [Hc Hs].
  apply IH; [exact Hs|]. pose proof (digitValue_nonneg c Hc); lia.
Qed.

Lemma spanDigits_digits s :
  JSString.forallb JSString.isDigit (fst (spanDigits s)) = true.
Proof.
  induction s as [|c s IH]; simpl; [reflexivity|].
  destruct (JSString.isDigit c) eqn:Hc; [|reflexivity].
  destruct (spanDigits s) as [ds r]; simpl in *.
  rewrite Hc, IH; reflexivity.
Qed.

(** A literal is found as soon as the text starts with a digit. *)
Lemma parseUnsigned_digit_head c r :
  JSString.isDigit c = true -> signedAs false (parseUnsigned (String c r)).
Proof.
  intros Hc; unfold parseUnsigned.
  pose proof (spanDigits_digits (String c r)) as Hip.
  simpl spanDigits in *; rewrite Hc in *.
  destruct (spanDigits r) as [ds r1]; simpl in Hip.
  set (frac := match r1 with String "." r0 => spanDigits r0 | _ => ("", r1) end).
  assert (Hfp : JSString.forallb JSString.isDigit (fst frac) = true).
  { unfold frac.
    destruct r1 as [|c1 r0]; [reflexivity|].
    destruct c1 as [[] [] [] [] [] [] [] []]; try reflexivity.
    apply spanDigits_digits. }
  destruct frac as [fp r2]; simpl in Hfp.
  cbn [String.eqb andb].
  apply ofDecimal_signed.
  apply digitsValueFrom_nonneg; [|lia].
  rewrite forallb_app; simpl; rewrite Hip, Hfp; reflexivity.
Qed.

Lemma parseFloat_digit_head c r :
  JSString.isDigit c = true -> parseFloat (String c r) = parseUnsigned (String c r).
Proof.
  destruct c as [[] [] [] [] [] [] [] []]; try discriminate; reflexivity.
Qed.

Lemma parseFloat_minus_digit_head c r :
  JSString.isDigit c = true ->
  parseFloat (String "-" (String c r)) = neg (parseUnsigned (String c r)).
Proof.
  destruct c as [[] [] [] [] [] [] [] []]; try discriminate; reflexivity.
Qed.

Lemma parseFloat_startsWithDigit s :
  startsWithDigit s = true -> signedAs false (parseFloat s).
Proof.
  destruct s as [|c r]; [discriminate|]; simpl; intros Hc.
  rewrite (parseFloat_digit_head _ _ Hc).
  apply parseUnsigned_digit_head, Hc.
Qed.

Lemma parseFloat_minus_startsWithDigit s :
  startsWithDigit s = true -> signedAs true (parseFloat ("-" ++ s)).
Proof.
  destruct s as [|c r]; [discriminate|]; simpl; intros Hc.
  rewrite (parseFloat_minus_digit_head _ _ Hc).
  apply (signedAs_neg false), parseUnsigned_digit_head, Hc.
Qed.

(** ** What [toFixed] prints starts with a digit *)

Lemma startsWithDigit_app a b :
  (0 < String.length a)%nat -> JSString.forallb JSString.isDigit a = true ->
  startsWithDigit (a ++ b) = true.
Proof.
  destruct a as [|c a]; simpl; [lia|].
  intros _ H; apply andb_true_iff in H as [Hc _]; exact Hc.
Qed.

Lemma insertPoint2_head n : startsWithDigit (insertPoint2 n) = true.
Proof.
  unfold insertPoint2.
  pose proof (fixedDigits_shape n) as H.
  destruct (fixedDigits n) as [a b]; destruct H as (Ha & Hda & _).
  apply startsWithDigit_app; assumption.
Qed.

Lemma toStringLarge_head x X : startsWithDigit (toStringLarge x X) = true.
Proof.
  unfold toStringLarge.
  destruct (shortest x X _ _) as [s k].
  destruct (if s =? 10 ^ k then _ else _) as [s' n].
  pose proof (decimalString_digits s') as Hd.
  pose proof (decimalString_nonempty s') as Hl.
  destruct (decimalString s') as [|c [|c' rest]]; simpl in *; [lia| |];
    apply andb_true_iff in Hd as [Hc _]; exact Hc.
Qed.

Lemma commitFormat_parses_back v : isNaN (parseFloat (commitFormat v)) = false.
Proof.
  unfold commitFormat.
  destruct (parseFloat v) as [s|s| |s m e]; cbn [orZero zero toFixed2];
    try reflexivity.
  - destruct s; reflexivity.
  - set (body := if magnitudeGe m e (10 ^ 21) then _ else _).
    assert (Hb : startsWithDigit body = true).
    { unfold body; destruct (magnitudeGe m e (10 ^ 21));
        [apply toStringLarge_head | apply insertPoint2_head]. }
    destruct s.
    + apply (signedAs_not_NaN true), parseFloat_minus_startsWithDigit, Hb.
    + apply (signedAs_not_NaN false), parseFloat_startsWithDigit, Hb.
Qed.

(** ** The simulated save *)

(** C7: the save of a formatted value is rejected exactly when the field is
    Sales Price and the number parsed back from the formatted value is
    below 10000.  A formatted value always parses back to a number, so the
    [Invalid number] rejection never happens, and every other field is
    saved whatever its value. *)
Theorem save_rejected_iff_low_sales_price :
  forall (key : Key) (v : string),
    let formattedValue := commitFormat v in
    let numericValue := parseFloat formattedValue in
    isNaN numericValue = false
    /\ remoteSave key formattedValue <> Rejected "Invalid number"
    /\ ((exists msg, remoteSave key formattedValue = Rejected msg)
        <-> key = salesPrice /\ ltb numericValue (ofInteger 10000) = true)
    /\ (key <> salesPrice -> remoteSave key formattedValue = Saved).
Proof.
  intros key v; cbn zeta.
  pose proof (commitFormat_parses_back v) as Hnum.
  unfold remoteSave; rewrite Hnum.
  split; [reflexivity|].
  destruct key; cbn [Key_eqb andb];
    destruct (ltb (parseFloat (commitFormat v)) (ofInteger 10000));
    (split; [discriminate|]);
    (split; [split|]);
    first [ intros [msg Hmsg]; discriminate Hmsg
          | intros [Hkey Hlt]; discriminate
          | intros Hkey; reflexivity
          | intros Hkey; exfalso; apply Hkey; reflexivity
          | idtac ].
  - intros _; split; reflexivity.
  - intros _; eexists; reflexivity.
Qed.

Lemma save_rejected_iff_low_sales_price_witness :
  remoteSave salesPrice (commitFormat "9999") =
    Rejected "Sales price must be at least $10,000"
  /\ remoteSave salesPrice (commitFormat "10000") = Saved
  /\ remoteSave downPayment (commitFormat "9999") = Saved.
Proof.
  split; [|split].
  - vm_compute; reflexivity.
  - vm_compute; reflexivity.
  - apply (save_rejected_iff_low_sales_price downPayment "9999"); discriminate.
Defined.

(** ** The total calculator *)

Lemma group3_chars a :
  JSString.forallb JSString.isDigit a = true ->
  JSString.forallb isDigitOrComma (group3 a) = true.
Proof.
  induction a as [|c a IH]; [reflexivity|].
  cbn [group3 JSString.forallb]; intros H.
  apply andb_true_iff in H as [Hc Ha].
  unfold isDigitOrComma at 1; rewrite Hc; cbn [orb andb].
  destruct ((0 <? String.length a)%nat && (String.length a mod 3 =? 0)%nat).
  - change ("," ++ group3 a) with (String "," (group3 a)).
    cbn [JSString.forallb]; rewrite (IH Ha); reflexivity.
  - exact (IH Ha).
Qed.

Lemma group3_nonempty a :
  (0 < String.length a)%nat -> (0 < String.length (group3 a))%nat.
Proof. destruct a; simpl; lia. Qed.

Lemma currencyBody_shape n :
  match JSString.split "." (currencyBody n) with
  | [a; b] =>
      negb (String.eqb a "") && JSString.forallb isDigitOrComma a
      && (String.length b =? 2)%nat && JSString.forallb JSString.isDigit b
  | _ => false
  end = true.
Proof.
  unfold currencyBody.
  pose proof (fixedDigits_shape n) as H.
  destruct (fixedDigits n) as [a b]; destruct H as (Ha & Hda & Hb & Hdb).
  change (group3 a ++ "." ++ b) with (group3 a ++ String "." b).
  rewrite (split_at_separator _ _ _ _ isDigitOrComma_not_point (group3_chars _ Hda)).
  rewrite (split_no_separator _ _ _ isDigit_not_point Hdb).
  rewrite (length_pos_not_empty _ (group3_nonempty _ Ha)).
  rewrite (group3_chars _ Hda), Hb, Hdb; reflexivity.
Qed.

(** The currency string has two fraction digits exactly for finite
    numbers. *)
Lemma toLocaleStringUSD_matches x :
  matchesCurrency (toLocaleStringUSD x) = isFinite x.
Proof.
  destruct x as [s|s| |s m e]; try (destruct s; reflexivity); try reflexivity.
  pose proof (currencyBody_shape (currencyHundredths m e)) as H.
  unfold toLocaleStringUSD, matchesCurrency.
  destruct s; exact H.
Qed.

Lemma safeParseFloat_not_NaN str : isNaN (safeParseFloat str) = false.
Proof.
  unfold safeParseFloat.
  destruct (isNaN (parseFloat (JSString.stripNonNumeric str))) eqn:H;
    [reflexivity | exact H].
Qed.

(** C10 as stated fails in its format: a canonical operand of 310 digits
    parses to Infinity, the total is Infinity, and its currency string has
    the currency symbol but no digits at all. *)
Lemma calculateTotal_overflow_has_no_fraction :
  JSString.forallb JSString.isNumericChar
    (value (getField overflowingFields salesPrice)) = true
  /\ totalNumber overflowingFields = S754_infinity false
  /\ calculateTotal overflowingFields = "$" ++ infinitySymbol
  /\ matchesCurrency (calculateTotal overflowingFields) = false.
Proof. vm_compute. repeat split; reflexivity. Qed.

(** C10, amended: the total is the currency string of
    salesPrice - downPayment + warranty + cpi + gap, summed from the left
    in binary64; an operand is the number parsed from its value stripped
    of every character but digits and points, and 0 when that does not
    parse, so an operand is never NaN; the result is defined for all
    fields; the result is a currency string (an optional minus sign, "$",
    grouped digits, a point and exactly two digits) exactly when the sum is
    finite; and the example fields give "$27,700.00". *)
Theorem calculateTotal_formula_and_format :
  forall fs : Fields,
    let operand key := safeParseFloat (value (getField fs key)) in
    calculateTotal fs =
      toLocaleStringUSD
        (add (add (add (sub (operand salesPrice) (operand downPayment))
                       (operand warranty)) (operand cpi)) (operand gap))
    /\ (forall key,
          operand key =
            (let num := parseFloat
                          (JSString.stripNonNumeric (value (getField fs key))) in
             if isNaN num then zero else num)
          /\ isNaN (operand key) = false)
    /\ (matchesCurrency (calculateTotal fs) = true
        <-> isFinite (totalNumber fs) = true)
    /\ calculateTotal exampleFields = "$27,700.00".
Proof.
  intros fs operand.
  split; [reflexivity|].
  split; [intros key; split; [reflexivity | apply safeParseFloat_not_NaN]|].
  split; [|vm_compute; reflexivity].
  unfold calculateTotal; rewrite toLocaleStringUSD_matches; reflexivity.
Qed.

Lemma calculateTotal_formula_and_format_witness :
  isFinite (totalNumber exampleFields) = true
  /\ matchesCurrency (calculateTotal exampleFields) = true
  /\ calculateTotal exampleFields = "$27,700.00".
Proof.
  split; [vm_compute; reflexivity|].
  split.
  - apply (calculateTotal_formula_and_format exampleFields).
    vm_compute; reflexivity.
  - apply (calculateTotal_formula_and_format exampleFields).
Defined.


(** * Further properties of the code *)

(** ** More on [parseCurrencyInput] *)

Lemma filter_app p s t :
  JSString.filter p (s ++ t) = JSString.filter p s ++ JSString.filter p t.
Proof.
  induction s as [|c s IH]; simpl; [reflexivity|].
  destruct (p c); simpl; rewrite IH; reflexivity.
Qed.

Lemma filter_filter p q s :
  (forall c, q c = true -> p c = true) ->
  JSString.filter q (JSString.filter p s) = JSString.filter q s.
Proof.
  intros Hqp; induction s as [|c s IH]; simpl; [reflexivity|].
  destruct (p c) eqn:Hp; simpl.
  - rewrite IH; reflexivity.
  - destruct (q c) eqn:Hq; [rewrite (Hqp _ Hq) in Hp; discriminate|exact IH].
Qed.

Lemma isDigit_isNumericChar c :
  JSString.isDigit c = true -> JSString.isNumericChar c = true.
Proof. intros H; unfold JSString.isNumericChar; rewrite H; reflexivity. Qed.

Lemma digitsOf_stripNonNumeric s : digitsOf (JSString.stripNonNumeric s) = digitsOf s.
Proof. apply filter_filter, isDigit_isNumericChar. Qed.

Lemma digitsOf_app s t : digitsOf (s ++ t) = digitsOf s ++ digitsOf t.
Proof. apply filter_app. Qed.

(** Joining the parts of a split drops the separators and nothing else. *)
Lemma digitsOf_join_split s :
  digitsOf (JSString.join (JSString.split "." s)) = digitsOf s.
Proof.
  induction s as [|c s IH]; [reflexivity|].
  cbn [JSString.split].
  destruct (Ascii.eqb_spec c ".") as [->|Hc].
  - cbn [JSString.join append]; exact IH.
  - destruct (JSString.split "." s) as [|part parts] eqn:Hs.
    + pose proof (split_length "." s) as Hl; rewrite Hs in Hl; discriminate.
    + cbn [JSString.join] in *.
      change (String c part ++ JSString.join parts)
        with (String c (part ++ JSString.join parts)).
      unfold digitsOf in *; cbn [JSString.filter]; rewrite IH; reflexivity.
Qed.

Lemma prefix_refl s : String.prefix s s = true.
Proof.
  induction s as [|c s IH]; simpl; [reflexivity|].
  destruct (ascii_dec c c) as [_|H]; [exact IH|contradiction H; reflexivity].
Qed.

Lemma prefix_app s t u : String.prefix (s ++ t) (s ++ u) = String.prefix t u.
Proof.
  induction s as [|c s IH]; simpl; [reflexivity|].
  destruct (ascii_dec c c) as [_|H]; [exact IH|contradiction H; reflexivity].
Qed.

Lemma prefix_nil s : String.prefix "" s = true.
Proof. destruct s; reflexivity. Qed.

Lemma prefix_filter_take p n s :
  String.prefix (JSString.filter p (JSString.take n s)) (JSString.filter p s)
  = true.
Proof.
  revert s; induction n as [|n IH]; intros [|c s]; simpl; try reflexivity.
  - apply prefix_nil.
  - destruct (p c); simpl; [|apply IH].
    destruct (ascii_dec c c) as [_|H]; [apply IH|contradiction H; reflexivity].
Qed.

(** X1: for every input, the result holds digits and points only, holds at
    most one point, and its digits are the digits of the input in their
    order with, at most, some cut off at the end: no digit is invented,
    moved or dropped from the middle. *)
Theorem parseCurrencyInput_alphabet_and_digits :
  forall input : string,
    JSString.forallb JSString.isNumericChar (parseCurrencyInput input) = true
    /\ (JSString.count "." (parseCurrencyInput input) <= 1)%nat
    /\ String.prefix (digitsOf (parseCurrencyInput input)) (digitsOf input)
       = true.
Proof.
  intros input.
  split; [apply parseCurrencyInput_numeric_chars|].
  split; [apply parseCurrencyInput_one_point|].
  rewrite <- (digitsOf_stripNonNumeric input).
  destruct (parseCurrencyInput_cases input)
    as [(p0 & p1 & p2 & rest & Hs & ->)
       |[(p0 & p1 & Hs & _ & ->)
        |[(p0 & p1 & _ & _ & ->)|(_ & _ & ->)]]];
    try apply prefix_refl.
  - rewrite <- (digitsOf_join_split (JSString.stripNonNumeric input)), Hs.
    change (JSString.join (p0 :: p1 :: p2 :: rest))
      with (p0 ++ JSString.join (p1 :: p2 :: rest)).
    rewrite !digitsOf_app; apply prefix_refl.
  - rewrite (split_two _ _ _ _ Hs).
    rewrite !digitsOf_app, prefix_app.
    unfold digitsOf; cbn [JSString.filter].
    change (JSString.isDigit ".") with false; cbn iota.
    apply prefix_filter_take.
Qed.

(** X2: when the input holds at most one point, at most two digits follow
    the point of the result. *)
Theorem parseCurrencyInput_limits_fraction :
  forall input : string,
    (JSString.count "." (JSString.stripNonNumeric input) <= 1)%nat ->
    (String.length (fractionDigits (parseCurrencyInput input)) <= 2)%nat.
Proof. exact parseCurrencyInput_two_digits_one_point. Qed.

Lemma parseCurrencyInput_limits_fraction_witness :
  (JSString.count "." (JSString.stripNonNumeric "$1,234.5678") <= 1)%nat
  /\ (String.length (fractionDigits (parseCurrencyInput "$1,234.5678")) <= 2)%nat.
Proof.
  split; [vm_compute; lia|].
  apply (parseCurrencyInput_limits_fraction "$1,234.5678"); vm_compute; lia.
Defined.

(** X3: a second pass over a result changes it exactly when the first pass
    left more than two digits after the point; so the function is
    idempotent on every input that holds at most one point. *)
Theorem parseCurrencyInput_idempotence :
  forall input : string,
    (parseCurrencyInput (parseCurrencyInput input) = parseCurrencyInput input
     <-> (String.length (fractionDigits (parseCurrencyInput input)) <= 2)%nat)
    /\ ((JSString.count "." (JSString.stripNonNumeric input) <= 1)%nat ->
        parseCurrencyInput (parseCurrencyInput input) = parseCurrencyInput input).
Proof.
  intros input; split.
  - apply parseCurrencyInput_idempotent_iff.
  - apply parseCurrencyInput_idempotent_one_point.
Qed.

Lemma parseCurrencyInput_idempotence_witness :
  (JSString.count "." (JSString.stripNonNumeric "12.345abc") <= 1)%nat
  /\ parseCurrencyInput (parseCurrencyInput "12.345abc")
     = parseCurrencyInput "12.345abc".
Proof.
  split; [vm_compute; lia|].
  apply (proj2 (parseCurrencyInput_idempotence "12.345abc")); vm_compute; lia.
Defined.

(** X4: a text of digits and points with at most one point and at most two
    digits after it is returned as it is: a committed value survives the
    sanitizer unchanged. *)
Theorem parseCurrencyInput_keeps_canonical :
  forall v : string,
    JSString.forallb JSString.isNumericChar v = true ->
    (JSString.count "." v <= 1)%nat ->
    (String.length (fractionDigits v) <= 2)%nat ->
    parseCurrencyInput v = v.
Proof. exact parseCurrencyInput_fixes_canonical. Qed.

Lemma parseCurrencyInput_keeps_canonical_witness :
  parseCurrencyInput "27537.00" = "27537.00".
Proof.
  apply (parseCurrencyInput_keeps_canonical "27537.00").
  - reflexivity.
  - vm_compute; lia.
  - vm_compute; lia.
Defined.

(** ** [formatInputValue] and the displayed text *)

Lemma split_app_count_0 sep a t :
  JSString.count sep a = 0%nat ->
  JSString.split sep (a ++ String sep t) = a :: JSString.split sep t.
Proof.
  induction a as [|c a IH]; simpl.
  - intros _; rewrite Ascii.eqb_refl; reflexivity.
  - destruct (Ascii.eqb c sep); [discriminate|].
    intros H; rewrite (IH H); reflexivity.
Qed.

Lemma app_point_not_empty a t : String.eqb (a ++ String "." t) "" = false.
Proof. destruct a; reflexivity. Qed.

Lemma formatInputValue_no_point v :
  JSString.count "." v = 0%nat ->
  formatInputValue v = insertThousandsCommas false v.
Proof.
  intros H; unfold formatInputValue.
  destruct (String.eqb_spec v "") as [->|_]; [reflexivity|].
  rewrite (split_count_0 _ _ H); reflexivity.
Qed.

Lemma formatInputValue_point a t :
  JSString.count "." a = 0%nat ->
  formatInputValue (a ++ String "." t)
  = insertThousandsCommas false a ++ "." ++ nth 0 (JSString.split "." t) "".
Proof.
  intros H; unfold formatInputValue.
  rewrite app_point_not_empty, (split_app_count_0 _ _ _ H).
  pose proof (split_length "." t) as Hl.
  destruct (JSString.split "." t) as [|b rest]; [discriminate|reflexivity].
Qed.

Lemma digitRun_digits s :
  JSString.forallb JSString.isDigit s = true -> digitRun s = String.length s.
Proof.
  induction s as [|c s IH]; simpl; [reflexivity|].
  intros H; apply andb_true_iff in H as [Hc Hs].
  rewrite Hc, (IH Hs); reflexivity.
Qed.

Lemma isDigit_isWordChar c : JSString.isDigit c = true -> isWordChar c = true.
Proof.
  unfold JSString.isDigit, isWordChar; cbv zeta; intros H; rewrite H; reflexivity.
Qed.

(** On a run of digits the regular expression and the locale grouping
    agree. *)
Lemma insertThousandsCommas_digits_after_word s :
  JSString.forallb JSString.isDigit s = true ->
  insertThousandsCommas true s
  = (if (0 <? String.length s)%nat && (String.length s mod 3 =? 0)%nat
     then "," ++ group3 s else group3 s).
Proof.
  induction s as [|c s IH]; [reflexivity|].
  intros H; pose proof (digitRun_digits _ H) as Hrun.
  cbn [JSString.forallb] in H; apply andb_true_iff in H as [Hc Hs].
  cbn [insertThousandsCommas]; rewrite Hrun, (isDigit_isWordChar _ Hc), (IH Hs).
  cbn [andb group3].
  destruct ((0 <? String.length (String c s))%nat
            && (String.length (String c s) mod 3 =? 0)%nat); reflexivity.
Qed.

Lemma insertThousandsCommas_digits s :
  JSString.forallb JSString.isDigit s = true ->
  insertThousandsCommas false s = group3 s.
Proof.
  destruct s as [|c s]; [reflexivity|].
  cbn [JSString.forallb]; intros H; apply andb_true_iff in H as [Hc Hs].
  cbn [insertThousandsCommas andb append group3].
  rewrite (isDigit_isWordChar _ Hc), (insertThousandsCommas_digits_after_word _ Hs).
  reflexivity.
Qed.

(** Only commas are inserted. *)
Lemma filter_insertThousandsCommas (p : ascii -> bool) prevWord s :
  p ","%char = false ->
  JSString.filter p (insertThousandsCommas prevWord s) = JSString.filter p s.
Proof.
  intros Hp; revert prevWord; induction s as [|c s IH]; intros prevWord;
    [reflexivity|].
  cbn [insertThousandsCommas].
  rewrite filter_app.
  destruct (prevWord && _ && _); cbn [JSString.filter append];
    rewrite ?Hp, IH; reflexivity.
Qed.

(** The groups of [group3]: a first one of one to three digits, then
    groups of exactly three. *)
Lemma group3_groups a :
  JSString.forallb JSString.isDigit a = true ->
  (0 < String.length a)%nat ->
  exists first rest,
    JSString.split "," (group3 a) = first :: rest
    /\ String.length first = ((String.length a - 1) mod 3 + 1)%nat
    /\ Forall (fun part => String.length part = 3%nat) rest
    /\ List.length rest = ((String.length a - 1) / 3)%nat.
Proof.
  induction a as [|c a IH]; [simpl; lia|].
  cbn [JSString.forallb]; intros H _; apply andb_true_iff in H as [Hc Ha].
  assert (Hcomma : Ascii.eqb c "," = false).
  { destruct (Ascii.eqb_spec c ","); [subst; discriminate|reflexivity]. }
  cbn [group3].
  destruct a as [|c' a'].
  - exists (String c ""), []; cbn [JSString.split andb group3 Nat.ltb Nat.leb String.length].
    rewrite Hcomma; repeat split; constructor.
  - destruct (IH Ha ltac:(simpl; lia)) as (first & rest & Hs & Hf & Hr & Hn).
    set (r := String c' a') in *.
    assert (Hpos : (0 <? String.length r)%nat = true) by reflexivity.
    rewrite Hpos; cbn [andb].
    assert (Hlen : String.length (String c r) = S (String.length r)) by reflexivity.
    assert (Hr0 : (0 < String.length r)%nat) by (unfold r; simpl; lia).
    clearbody r; clear IH.
    destruct (Nat.eqb_spec (String.length r mod 3) 0) as [Hm|Hm].
    + exists (String c ""), (first :: rest).
      change ("," ++ group3 r) with (String "," (group3 r)).
      cbn [JSString.split]; rewrite Hcomma, Ascii.eqb_refl, Hs.
      rewrite Hlen; cbn [String.length List.length].
      replace (S (String.length r) - 1)%nat with (String.length r) by lia.
      revert Hf Hn Hm Hr0; generalize (String.length r); intros n Hf Hn Hm Hr0.
      pose proof (Nat.div_mod_eq n 3) as Hdm.
      pose proof (Nat.div_mod_eq (n - 1) 3) as Hdm1.
      pose proof (Nat.mod_upper_bound n 3 ltac:(lia)) as Hb.
      pose proof (Nat.mod_upper_bound (n - 1) 3 ltac:(lia)) as Hb1.
      repeat split.
      * lia.
      * constructor; [lia|exact Hr].
      * lia.
    + exists (String c first), rest.
      cbn [JSString.split]; rewrite Hcomma, Hs.
      rewrite Hlen; cbn [String.length].
      replace (S (String.length r) - 1)%nat with (String.length r) by lia.
      revert Hf Hn Hm Hr0; generalize (String.length r); intros n Hf Hn Hm Hr0.
      pose proof (Nat.div_mod_eq n 3) as Hdm.
      pose proof (Nat.div_mod_eq (n - 1) 3) as Hdm1.
      pose proof (Nat.mod_upper_bound n 3 ltac:(lia)) as Hb.
      pose proof (Nat.mod_upper_bound (n - 1) 3 ltac:(lia)) as Hb1.
      repeat split.
      * lia.
      * exact Hr.
      * lia.
Qed.

Lemma digits_not_comma a :
  JSString.forallb JSString.isDigit a = true ->
  JSString.forallb notComma a = true.
Proof.
  apply forallb_weaken; intros c Hc.
  destruct c as [[] [] [] [] [] [] [] []]; try discriminate; reflexivity.
Qed.

Lemma digits_no_point a :
  JSString.forallb JSString.isDigit a = true -> JSString.count "." a = 0%nat.
Proof.
  induction a as [|c a IH]; simpl; [reflexivity|].
  intros H; apply andb_true_iff in H as [Hc Ha].
  destruct (Ascii.eqb_spec c ".") as [->|_]; [discriminate|exact (IH Ha)].
Qed.

(** X5: on a text of digits, a point and a fraction without a point,
    [formatInputValue] keeps the point and the fraction as they are (also
    a bare trailing point) and rewrites only the digits before the point;
    there it inserts commas and nothing else, and the commas cut the
    digits into a first group of one to three digits followed by groups of
    exactly three. *)
Theorem formatInputValue_groups_thousands :
  forall a b : string,
    JSString.forallb JSString.isDigit a = true ->
    JSString.count "." b = 0%nat ->
    formatInputValue (a ++ "." ++ b) = formatInputValue a ++ "." ++ b
    /\ JSString.filter notComma (formatInputValue a) = a
    /\ ((0 < String.length a)%nat ->
        exists first rest,
          JSString.split "," (formatInputValue a) = first :: rest
          /\ String.length first = ((String.length a - 1) mod 3 + 1)%nat
          /\ Forall (fun part => String.length part = 3%nat) rest
          /\ List.length rest = ((String.length a - 1) / 3)%nat).
Proof.
  intros a b Ha Hb.
  pose proof (digits_no_point _ Ha) as Hpoint.
  rewrite (formatInputValue_no_point _ Hpoint).
  split; [|split].
  - change (a ++ "." ++ b) with (a ++ String "." b).
    rewrite (formatInputValue_point _ _ Hpoint), (split_count_0 _ _ Hb).
    reflexivity.
  - rewrite filter_insertThousandsCommas by reflexivity.
    apply filter_id, digits_not_comma, Ha.
  - intros Hlen; rewrite (insertThousandsCommas_digits _ Ha).
    apply group3_groups; assumption.
Qed.

Lemma formatInputValue_groups_thousands_witness :
  formatInputValue ("1234567" ++ "." ++ "5") = formatInputValue "1234567" ++ "." ++ "5"
  /\ JSString.filter notComma (formatInputValue "1234567") = "1234567"
  /\ exists first rest,
       JSString.split "," (formatInputValue "1234567") = first :: rest
       /\ String.length first = 1%nat
       /\ Forall (fun part => String.length part = 3%nat) rest
       /\ List.length rest = 2%nat.
Proof.
  destruct (formatInputValue_groups_thousands "1234567" "5" eq_refl eq_refl)
    as (Hfraction & Hcommas & Hgroups).
  split; [exact Hfraction|].
  split; [exact Hcommas|].
  apply Hgroups; simpl; lia.
Defined.

Lemma stripNonNumeric_formatInputValue v :
  (JSString.count "." v <= 1)%nat ->
  JSString.stripNonNumeric (formatInputValue v) = JSString.stripNonNumeric v.
Proof.
  intros Hone; unfold JSString.stripNonNumeric.
  pose proof (split_length "." v) as Hlen.
  pose proof (split_parts_no_separator "." v) as Hparts.
  destruct (JSString.split "." v) as [|a [|b [|c rest]]] eqn:Hs;
    simpl in Hlen; try lia.
  - rewrite formatInputValue_no_point by lia.
    apply filter_insertThousandsCommas; reflexivity.
  - inversion Hparts as [|? ? Ha Hrest]; subst.
    inversion Hrest as [|? ? Hb _]; subst.
    rewrite (split_two _ _ _ _ Hs).
    rewrite (formatInputValue_point _ _ Ha), (split_count_0 _ _ Hb).
    cbn [nth].
    change (insertThousandsCommas false a ++ "." ++ b)
      with (insertThousandsCommas false a ++ String "." b).
    rewrite !filter_app, filter_insertThousandsCommas by reflexivity.
    reflexivity.
Qed.

Lemma parseCurrencyInput_stripNonNumeric x y :
  JSString.stripNonNumeric x = JSString.stripNonNumeric y ->
  parseCurrencyInput x = parseCurrencyInput y.
Proof. intros H; unfold parseCurrencyInput; rewrite H; reflexivity. Qed.

(** X6: the decoration of the displayed text is invisible to the code that
    reads it back.  After a change event the displayed text of the field,
    stripped of its non-numeric characters, is the stored value, so the
    total calculator reads the same number from both; and, when the stored
    value has at most two digits after the point, a further change event
    that carries the displayed text as it is leaves the state as it is. *)
Theorem displayed_text_reads_back :
  forall (st : State) (key : Key) (targetValue : string),
    let st' := step (Change key targetValue) st in
    let v := value (getField (fields st') key) in
    let shown := displayValue (fields st') key in
    JSString.stripNonNumeric shown = v
    /\ safeParseFloat shown = safeParseFloat v
    /\ ((String.length (fractionDigits v) <= 2)%nat ->
        step (Change key shown) st' = st').
Proof.
  intros st key targetValue st' v shown.
  assert (Hv : v = parseCurrencyInput targetValue).
  { unfold v, st'; cbn [step]; unfold handleFieldChange; cbn [fields].
    rewrite getField_setField_same; reflexivity. }
  unfold shown, displayValue.
  change (value (getField (fields st') key)) with v.
  clearbody v; subst v.
  set (v := parseCurrencyInput targetValue).
  pose proof (parseCurrencyInput_numeric_chars targetValue) as Hnum.
  pose proof (parseCurrencyInput_one_point targetValue) as Hone.
  fold v in Hnum, Hone.
  assert (Hstrip : JSString.stripNonNumeric ("$" ++ formatInputValue v)
                   = JSString.stripNonNumeric v).
  { change (JSString.stripNonNumeric ("$" ++ formatInputValue v))
      with (JSString.stripNonNumeric (formatInputValue v)).
    apply stripNonNumeric_formatInputValue, Hone. }
  assert (Hid : JSString.stripNonNumeric v = v) by (apply filter_id, Hnum).
  split; [rewrite Hstrip; exact Hid|].
  split.
  - unfold safeParseFloat; rewrite Hstrip; reflexivity.
  - intros Hfrac.
    unfold st'; cbn [step]; unfold handleFieldChange;
      cbn [fields amountFinanced originalValueRef pending].
    rewrite setField_setField, getField_setField_same; cbn [isSaving].
    rewrite (parseCurrencyInput_stripNonNumeric _ v Hstrip).
    rewrite (parseCurrencyInput_fixes_canonical v Hnum Hone Hfrac).
    reflexivity.
Qed.

Lemma displayed_text_reads_back_witness :
  let st' := step (Change salesPrice "$1,234,567.5x") initialState in
  (String.length (fractionDigits (value (getField (fields st') salesPrice))) <= 2)%nat
  /\ displayValue (fields st') salesPrice = "$1,234,567.5"
  /\ step (Change salesPrice (displayValue (fields st') salesPrice)) st' = st'.
Proof.
  split; [vm_compute; lia|].
  split; [vm_compute; reflexivity|].
  apply (displayed_text_reads_back initialState salesPrice "$1,234,567.5x").
  vm_compute; lia.
Defined.

(** X7: [formatInputValue] shows nothing of a value from its second point
    on: the destructuring takes the first two parts of the split. *)
Theorem formatInputValue_drops_after_second_point :
  forall a b c : string,
    JSString.count "." a = 0%nat ->
    JSString.count "." b = 0%nat ->
    formatInputValue (a ++ "." ++ b ++ "." ++ c) = formatInputValue (a ++ "." ++ b).
Proof.
  intros a b c Ha Hb.
  change (a ++ "." ++ b ++ "." ++ c) with (a ++ String "." (b ++ String "." c)).
  change (a ++ "." ++ b) with (a ++ String "." b).
  rewrite !(formatInputValue_point _ _ Ha).
  rewrite (split_app_count_0 _ _ _ Hb), (split_count_0 _ _ Hb).
  reflexivity.
Qed.

Lemma formatInputValue_drops_after_second_point_witness :
  formatInputValue ("1" ++ "." ++ "2" ++ "." ++ "345") = formatInputValue ("1" ++ "." ++ "2").
Proof.
  apply (formatInputValue_drops_after_second_point "1" "2" "345"); reflexivity.
Defined.

(** ** Operands of the total and committed values *)

Lemma parseUnsigned_signed_or_NaN s :
  isNaN (parseUnsigned s) = true \/ signedAs false (parseUnsigned s).
Proof.
  unfold parseUnsigned.
  pose proof (spanDigits_digits s) as Hip.
  destruct (spanDigits s) as [ip r1]; simpl in Hip.
  set (frac := match r1 with String "." r0 => spanDigits r0 | _ => ("", r1) end).
  assert (Hfp : JSString.forallb JSString.isDigit (fst frac) = true).
  { unfold frac.
    destruct r1 as [|c1 r0]; [reflexivity|].
    destruct c1 as [[] [] [] [] [] [] [] []]; try reflexivity.
    apply spanDigits_digits. }
  destruct frac as [fp r2]; simpl in Hfp.
  destruct (String.eqb ip "" && String.eqb fp ""); [left; reflexivity|right].
  apply ofDecimal_signed.
  apply digitsValueFrom_nonneg; [|lia].
  rewrite forallb_app, Hip, Hfp; reflexivity.
Qed.

Lemma parseFloat_numeric s :
  JSString.forallb JSString.isNumericChar s = true ->
  parseFloat s = parseUnsigned s.
Proof.
  destruct s as [|c r]; [reflexivity|].
  cbn [JSString.forallb]; intros H; apply andb_true_iff in H as [Hc _].
  destruct c as [[] [] [] [] [] [] [] []]; try discriminate; reflexivity.
Qed.

(** X8: an operand of the total is never NaN and never negative, whatever
    the text: a minus sign is stripped with the other non-numeric
    characters before the text is parsed. *)
Theorem safeParseFloat_non_negative :
  forall str : string,
    isNaN (safeParseFloat str) = false
    /\ isNegative (safeParseFloat str) = false
    /\ safeParseFloat (String "-" str) = safeParseFloat str.
Proof.
  intros str.
  assert (H : signedAs false (safeParseFloat str)).
  { unfold safeParseFloat.
    rewrite (parseFloat_numeric (JSString.stripNonNumeric str)
               (forallb_filter JSString.isNumericChar str)).
    destruct (parseUnsigned_signed_or_NaN (JSString.stripNonNumeric str))
      as [Hnan|Hsigned].
    - rewrite Hnan; exact eq_refl.
    - rewrite (signedAs_not_NaN _ _ Hsigned); exact Hsigned. }
  split; [exact (signedAs_not_NaN _ _ H)|].
  split; [|reflexivity].
  destruct (safeParseFloat str) as [s|s| |s m e]; simpl in H; subst;
    try reflexivity; contradiction.
Qed.

(** X9: a value too large for a number is committed as the text
    "Infinity": the save accepts it for every field, Sales Price
    included, and the total calculator then reads it as 0. *)
Theorem overflow_is_saved_and_counts_as_zero :
  forall (key : Key) (v : string),
    parseFloat v = S754_infinity false ->
    commitFormat v = "Infinity"
    /\ remoteSave key (commitFormat v) = Saved
    /\ safeParseFloat (commitFormat v) = zero.
Proof.
  intros key v H.
  assert (Hc : commitFormat v = "Infinity")
    by (unfold commitFormat; rewrite H; reflexivity).
  rewrite Hc; split; [reflexivity|]; split.
  - destruct key; vm_compute; reflexivity.
  - vm_compute; reflexivity.
Qed.

Lemma overflow_is_saved_and_counts_as_zero_witness :
  commitFormat ("1" ++ JSString.replicate 309 "0") = "Infinity"
  /\ remoteSave salesPrice (commitFormat ("1" ++ JSString.replicate 309 "0")) = Saved
  /\ safeParseFloat (commitFormat ("1" ++ JSString.replicate 309 "0")) = zero.
Proof.
  apply (overflow_is_saved_and_counts_as_zero salesPrice
           ("1" ++ JSString.replicate 309 "0")).
  vm_compute; reflexivity.
Defined.

Lemma insertPoint2_canonical n :
  let v := insertPoint2 n in
  JSString.forallb JSString.isNumericChar v = true
  /\ JSString.count "." v = 1%nat
  /\ String.length (fractionDigits v) = 2%nat.
Proof.
  cbn zeta; unfold insertPoint2, fractionDigits.
  pose proof (fixedDigits_shape n) as H.
  destruct (fixedDigits n) as [a b]; destruct H as (_ & Hda & Hb & Hdb).
  change (a ++ "." ++ b) with (a ++ String "." b).
  pose proof (digits_no_point _ Hda) as Hpa.
  pose proof (digits_no_point _ Hdb) as Hpb.
  split; [|split].
  - rewrite forallb_app; cbn [JSString.forallb].
    rewrite (forallb_weaken _ _ a isDigit_isNumericChar Hda),
            (forallb_weaken _ _ b isDigit_isNumericChar Hdb); reflexivity.
  - rewrite count_app; cbn [JSString.count].
    rewrite Ascii.eqb_refl, Hpa, Hpb; reflexivity.
  - rewrite (afterFirst_app _ _ _ Hpa); exact Hb.
Qed.

(** X10: a value committed from a non-negative number below 10^21 is
    canonical: digits and one point with exactly two digits after it.  The
    sanitizer returns it unchanged, and so does a change event that
    carries its displayed text. *)
Theorem committed_value_is_canonical :
  forall currentValue : string,
    belowInteger (orZero (parseFloat currentValue)) (10 ^ 21) = true ->
    let v := commitFormat currentValue in
    JSString.forallb JSString.isNumericChar v = true
    /\ JSString.count "." v = 1%nat
    /\ String.length (fractionDigits v) = 2%nat
    /\ parseCurrencyInput v = v
    /\ parseCurrencyInput ("$" ++ formatInputValue v) = v.
Proof.
  intros currentValue Hbelow v.
  assert (Hcanon : JSString.forallb JSString.isNumericChar v = true
                   /\ JSString.count "." v = 1%nat
                   /\ String.length (fractionDigits v) = 2%nat).
  { unfold v, commitFormat.
    destruct (parseFloat currentValue) as [s|s| |s m e];
      cbn [orZero zero belowInteger] in *; try discriminate;
      try (repeat split; reflexivity).
    destruct s; [discriminate|].
    apply negb_true_iff in Hbelow; cbn [toFixed2]; rewrite Hbelow.
    apply insertPoint2_canonical. }
  destruct Hcanon as (Hnum & Hone & Hfrac).
  assert (Hfix : parseCurrencyInput v = v)
    by (apply parseCurrencyInput_fixes_canonical; [exact Hnum|lia|lia]).
  repeat split; try assumption.
  rewrite <- Hfix at 2.
  apply parseCurrencyInput_stripNonNumeric.
  change (JSString.stripNonNumeric ("$" ++ formatInputValue v))
    with (JSString.stripNonNumeric (formatInputValue v)).
  apply stripNonNumeric_formatInputValue; lia.
Qed.

Lemma committed_value_is_canonical_witness :
  belowInteger (orZero (parseFloat "1234567.891")) (10 ^ 21) = true
  /\ parseCurrencyInput (commitFormat "1234567.891") = commitFormat "1234567.891"
  /\ parseCurrencyInput ("$" ++ formatInputValue (commitFormat "1234567.891"))
     = commitFormat "1234567.891".
Proof.
  split; [vm_compute; reflexivity|].
  destruct (committed_value_is_canonical "1234567.891") as (_ & _ & _ & Hfix & Hback).
  - vm_compute; reflexivity.
  - split; [exact Hfix|exact Hback].
Defined.

(** ** The handlers, one event at a time *)

Lemma getField_setField fs k f key :
  getField (setField fs k f) key = if Key_eqb key k then f else getField fs key.
Proof. destruct k, key; reflexivity. Qed.

Lemma Key_eqb_refl k : Key_eqb k k = true.
Proof. destruct k; reflexivity. Qed.

Lemma Key_eqb_sym a b : Key_eqb a b = Key_eqb b a.
Proof. destruct a, b; reflexivity. Qed.

Lemma setField_commute fs k1 k2 f1 f2 :
  k1 <> k2 ->
  setField (setField fs k1 f1) k2 f2 = setField (setField fs k2 f2) k1 f1.
Proof. destruct k1, k2; intros H; try reflexivity; contradiction H; reflexivity. Qed.

Lemma handleBlur_changed st key :
  originalValueRef st <> Some (commitFormat (value (getField (fields st) key))) ->
  handleBlur key st =
  mkState (setField (fields st) key
             (mkField (commitFormat (value (getField (fields st) key))) true false))
          (amountFinanced st) (originalValueRef st)
          (pending st ++ [(key, commitFormat (value (getField (fields st) key)))]).
Proof.
  intros H; unfold handleBlur.
  destruct (originalValueRef st) as [original|]; [|reflexivity].
  destruct (String.eqb_spec (commitFormat (value (getField (fields st) key)))
              original) as [Heq|_]; [|reflexivity].
  contradiction H; rewrite Heq; reflexivity.
Qed.

(** X11: a blur issues a save exactly when the formatted value of the
    field differs from the focus snapshot, so always when no field has been
    focused yet.  The save carries the formatted value; the field shows
    that value with its saving flag up and its error flag down; an earlier
    save of the field still suspended stays suspended, and the total is
    untouched. *)
Theorem blur_saves_iff_snapshot_differs :
  forall (st : State) (key : Key),
    let formatted := commitFormat (value (getField (fields st) key)) in
    (originalValueRef st = Some formatted
     /\ pending (step (Blur key) st) = pending st)
    \/ (originalValueRef st <> Some formatted
        /\ step (Blur key) st =
           mkState (setField (fields st) key (mkField formatted true false))
                   (amountFinanced st) (originalValueRef st)
                   (pending st ++ [(key, formatted)])).
Proof.
  intros st key formatted; cbn [step].
  assert (Hdec : originalValueRef st = Some formatted
                 \/ originalValueRef st <> Some formatted).
  { destruct (originalValueRef st) as [original|]; [|right; discriminate].
    destruct (String.eqb_spec formatted original) as [Heq|Hne].
    - left; rewrite Heq; reflexivity.
    - right; intros H; injection H as H; apply Hne; symmetry; exact H. }
  destruct Hdec as [Heq|Hne].
  - left; split; [exact Heq|].
    unfold handleBlur; fold formatted; rewrite Heq, String.eqb_refl.
    destruct (negb _); reflexivity.
  - right; split; [exact Hne|].
    apply handleBlur_changed; exact Hne.
Qed.

(** X12: a field focused, edited and blurred while no save is suspended,
    whose save is accepted, ends idle with the formatted last input as its
    value; no other field changes, and the total is recomputed from the
    resulting fields. *)
Theorem accepted_save_commits_value :
  forall (st : State) (key : Key) (raws : list string),
    pending st = [] ->
    raws <> [] ->
    let attempted := commitFormat (parseCurrencyInput (last raws "")) in
    attempted <> value (getField (fields st) key) ->
    remoteSave key attempted = Saved ->
    let st' := run (Focus key :: map (Change key) raws ++ [Blur key; TimerFires])
                   st in
    fields st' = setField (fields st) key (mkField attempted false false)
    /\ amountFinanced st' = calculateTotal (fields st')
    /\ pending st' = [].
Proof.
  intros st key raws Hp Hne attempted Hdiff Hsaved; cbn zeta.
  change (run (Focus key :: map (Change key) raws ++ [Blur key; TimerFires]) st)
    with (run (map (Change key) raws ++ [Blur key; TimerFires])
              (handleFocus key st)).
  rewrite run_app, (run_changes _ _ _ Hne).
  unfold handleFocus; cbn [fields amountFinanced originalValueRef pending].
  cbn [run step].
  rewrite handleBlur_changed;
    cbn [fields amountFinanced originalValueRef pending];
    rewrite getField_setField_same; cbn [value]; fold attempted.
  - rewrite Hp; cbn [app pending fields amountFinanced originalValueRef].
    rewrite (resumeBlur_saved _ _ _ Hsaved).
    cbn [fields amountFinanced originalValueRef pending].
    rewrite !setField_setField, getField_setField_same; cbn [value].
    repeat split.
  - intros H; injection H as H; apply Hdiff; symmetry; exact H.
Qed.

Lemma accepted_save_commits_value_witness :
  let st' := run (Focus salesPrice :: map (Change salesPrice) ["3"; "30"; "30000"]
                    ++ [Blur salesPrice; TimerFires]) initialState in
  fields st' = setField initialFields salesPrice (mkField "30000.00" false false)
  /\ amountFinanced st' = calculateTotal (fields st')
  /\ pending st' = [].
Proof.
  refine (accepted_save_commits_value initialState salesPrice
            ["3"; "30"; "30000"] _ _ _ _).
  - reflexivity.
  - discriminate.
  - vm_compute; discriminate.
  - vm_compute; reflexivity.
Defined.

(** X13: an edit made while the save of the field is suspended meets the
    reply as follows.  A rejection brings back the attempted value with
    the error flag up: the newer edit is lost.  An acceptance keeps the
    newer edit in the field, idle, and the total is recomputed from it,
    though it was not the value saved. *)
Theorem reply_meets_later_edit :
  forall (st : State) (key : Key) (formattedValue raw : string)
         (rest : list (Key * string)),
    pending st = (key, formattedValue) :: rest ->
    let st' := run [Change key raw; TimerFires] st in
    match remoteSave key formattedValue with
    | Rejected _ =>
        getField (fields st') key = mkField formattedValue false true
        /\ amountFinanced st' = amountFinanced st
    | Saved =>
        getField (fields st') key = mkField (parseCurrencyInput raw) false false
        /\ amountFinanced st' = calculateTotal (fields st')
    end.
Proof.
  intros st key formattedValue raw rest Hp.
  assert (Hrun : run [Change key raw; TimerFires] st =
                 resumeBlur key formattedValue
                   (mkState (setField (fields st) key
                               (mkField (parseCurrencyInput raw)
                                        (isSaving (getField (fields st) key)) false))
                            (amountFinanced st) (originalValueRef st) rest)).
  { cbn [run step]; unfold handleFieldChange.
    cbn [fields amountFinanced originalValueRef pending]; rewrite Hp; reflexivity. }
  cbn zeta; rewrite Hrun; clear Hrun; unfold resumeBlur.
  destruct (remoteSave key formattedValue);
    cbn [fields amountFinanced originalValueRef pending];
    repeat rewrite getField_setField_same; split; reflexivity.
Qed.

Lemma reply_meets_later_edit_witness :
  let st := run [Focus salesPrice; Change salesPrice "9999"; Blur salesPrice]
                initialState in
  let st' := run [Change salesPrice "30000"; TimerFires] st in
  getField (fields st') salesPrice = mkField "9999.00" false true
  /\ amountFinanced st' = amountFinanced st.
Proof.
  exact (reply_meets_later_edit
           (run [Focus salesPrice; Change salesPrice "9999"; Blur salesPrice]
                initialState)
           salesPrice "9999.00" "30000" [] eq_refl).
Defined.

(** ** What holds in every state the component reaches *)

Lemma hasPendingFor_app key queue entry :
  hasPendingFor key (queue ++ [entry])
  = hasPendingFor key queue || Key_eqb (fst entry) key.
Proof.
  unfold hasPendingFor; rewrite existsb_app; simpl; rewrite orb_false_r; reflexivity.
Qed.

Lemma remoteSave_rejects_only_salesPrice key currentValue msg :
  remoteSave key (commitFormat currentValue) = Rejected msg -> key = salesPrice.
Proof.
  unfold remoteSave; rewrite commitFormat_parses_back.
  destruct key; cbn [Key_eqb andb]; try discriminate; reflexivity.
Qed.

Ltac field_cases key k :=
  rewrite getField_setField;
  let Hk := fresh "Hk" in
  destruct (Key_eqb key k) eqn:Hk;
  [apply Key_eqb_eq in Hk; subst key|];
  cbn [isSaving hasError value].

Lemma step_flagsExclusive ev st :
  flagsExclusive st -> flagsExclusive (step ev st).
Proof.
  intros H; destruct ev as [k|k raw|k|]; cbn [step].
  - exact H.
  - unfold handleFieldChange, flagsExclusive in *; cbn [fields]; intros key.
    field_cases key k; [apply andb_false_r|apply H].
  - unfold handleBlur.
    destruct (match originalValueRef st with
              | Some original => _
              | None => false
              end); [destruct (negb _)|]; try exact H;
      unfold flagsExclusive in *; cbn [fields]; intros key;
      field_cases key k; solve [apply H | reflexivity].
  - destruct (pending st) as [|[k v] rest]; [exact H|].
    unfold resumeBlur; destruct (remoteSave k v);
      unfold flagsExclusive in *; cbn [fields]; intros key;
      field_cases key k; solve [apply H | reflexivity].
Qed.

Lemma step_savingHasPending ev st :
  savingHasPending st -> savingHasPending (step ev st).
Proof.
  intros H; destruct ev as [k|k raw|k|]; cbn [step].
  - exact H.
  - unfold handleFieldChange, savingHasPending in *; cbn [fields pending].
    intros key; field_cases key k; apply H.
  - unfold handleBlur.
    destruct (match originalValueRef st with
              | Some original => _
              | None => false
              end); [destruct (negb _)|]; try exact H;
      unfold savingHasPending in *; cbn [fields pending]; intros key.
    + field_cases key k; apply H.
    + rewrite hasPendingFor_app; cbn [fst].
      field_cases key k.
      * intros _; rewrite Key_eqb_refl; apply orb_true_r.
      * intros Hs; rewrite (H key Hs); reflexivity.
  - unfold savingHasPending in *.
    destruct (pending st) as [|[k v] rest] eqn:Hp; [rewrite Hp; exact H|].
    assert (Hrest : forall key,
               Key_eqb key k = false ->
               isSaving (getField (fields st) key) = true ->
               hasPendingFor key rest = true).
    { intros key Hk Hs; specialize (H key Hs).
      unfold hasPendingFor in H; cbn [existsb fst] in H.
      rewrite Key_eqb_sym, Hk in H; exact H. }
    unfold resumeBlur; destruct (remoteSave k v);
      cbn [fields pending]; intros key;
      rewrite getField_setField; destruct (Key_eqb key k) eqn:Hk;
      cbn [isSaving]; solve [discriminate | apply Hrest; exact Hk].
Qed.

Lemma step_pendingFormatted ev st :
  pendingFormatted st -> pendingFormatted (step ev st).
Proof.
  intros H; destruct ev as [k|k raw|k|]; cbn [step].
  - exact H.
  - exact H.
  - unfold handleBlur.
    destruct (match originalValueRef st with
              | Some original => _
              | None => false
              end); [destruct (negb _)|]; try exact H.
    unfold pendingFormatted in *; cbn [pending]; intros key v Hin.
    apply in_app_or in Hin as [Hin|[Heq|[]]]; [exact (H _ _ Hin)|].
    injection Heq as _ <-; eexists; reflexivity.
  - unfold pendingFormatted in *.
    destruct (pending st) as [|[k v] rest] eqn:Hp; [rewrite Hp; exact H|].
    unfold resumeBlur; destruct (remoteSave k v); cbn [pending];
      intros key w Hin; apply (H key w); right; exact Hin.
Qed.

Lemma step_errorOnlyOnSalesPrice ev st :
  pendingFormatted st -> errorOnlyOnSalesPrice st ->
  errorOnlyOnSalesPrice (step ev st).
Proof.
  intros Hformatted H; destruct ev as [k|k raw|k|]; cbn [step].
  - exact H.
  - unfold handleFieldChange, errorOnlyOnSalesPrice in *; cbn [fields].
    intros key; field_cases key k; [discriminate|apply H].
  - unfold handleBlur.
    destruct (match originalValueRef st with
              | Some original => _
              | None => false
              end); [destruct (negb _)|]; try exact H;
      unfold errorOnlyOnSalesPrice in *; cbn [fields]; intros key;
      field_cases key k; solve [apply H | discriminate].
  - unfold errorOnlyOnSalesPrice, pendingFormatted in *.
    destruct (pending st) as [|[k v] rest] eqn:Hp; [exact H|].
    destruct (Hformatted k v (or_introl eq_refl)) as [currentValue ->].
    unfold resumeBlur;
      destruct (remoteSave k (commitFormat currentValue)) as [|msg] eqn:Hr;
      cbn [fields]; intros key; field_cases key k;
      try solve [apply H | discriminate].
    intros _; exact (remoteSave_rejects_only_salesPrice _ _ _ Hr).
Qed.

Lemma run_keeps_invariants evs st :
  flagsExclusive st /\ savingHasPending st /\ pendingFormatted st
  /\ errorOnlyOnSalesPrice st ->
  flagsExclusive (run evs st) /\ savingHasPending (run evs st)
  /\ pendingFormatted (run evs st) /\ errorOnlyOnSalesPrice (run evs st).
Proof.
  revert st; induction evs as [|ev evs IH]; intros st H; [exact H|].
  cbn [run]; apply IH.
  destruct H as (Hflags & Hsaving & Hformatted & Herror).
  repeat split.
  - apply step_flagsExclusive, Hflags.
  - apply step_savingHasPending, Hsaving.
  - apply step_pendingFormatted, Hformatted.
  - apply step_errorOnlyOnSalesPrice; assumption.
Qed.

Lemma initialState_invariants :
  flagsExclusive initialState /\ savingHasPending initialState
  /\ pendingFormatted initialState /\ errorOnlyOnSalesPrice initialState.
Proof.
  repeat split.
  - intros key; destruct key; reflexivity.
  - intros key; destruct key; discriminate.
  - intros key v [].
  - intros key; destruct key; discriminate.
Qed.

(** X14: whatever the events, no field has its saving flag and its error
    flag up together, and a field whose saving flag is up has a save of its
    own suspended. *)
Theorem reachable_flags_consistent :
  forall evs : list Event,
    let st := run evs initialState in
    (forall key,
        isSaving (getField (fields st) key) && hasError (getField (fields st) key)
        = false)
    /\ (forall key,
          isSaving (getField (fields st) key) = true ->
          hasPendingFor key (pending st) = true).
Proof.
  intros evs st.
  destruct (run_keeps_invariants evs initialState initialState_invariants)
    as (Hflags & Hsaving & _).
  split; [exact Hflags|exact Hsaving].
Qed.

Lemma reachable_flags_consistent_witness :
  let st := run [Focus downPayment; Change downPayment "3000"; Blur downPayment]
                initialState in
  isSaving (getField (fields st) downPayment) = true
  /\ hasPendingFor downPayment (pending st) = true.
Proof.
  split; [vm_compute; reflexivity|].
  apply (proj2 (reachable_flags_consistent
                  [Focus downPayment; Change downPayment "3000"; Blur downPayment])).
  vm_compute; reflexivity.
Defined.

(** X15: whatever the events, the error flag is only ever up on Sales
    Price; every suspended save carries a text that parses to a number, so
    the [Invalid number] rejection is never raised, and a suspended save of
    another field than Sales Price will be accepted. *)
Theorem reachable_errors_only_on_salesPrice :
  forall evs : list Event,
    let st := run evs initialState in
    (forall key, hasError (getField (fields st) key) = true -> key = salesPrice)
    /\ (forall key formattedValue,
          In (key, formattedValue) (pending st) ->
          isNaN (parseFloat formattedValue) = false
          /\ (key <> salesPrice -> remoteSave key formattedValue = Saved)).
Proof.
  intros evs st.
  destruct (run_keeps_invariants evs initialState initialState_invariants)
    as (_ & _ & Hformatted & Herror).
  split; [exact Herror|].
  intros key formattedValue Hin.
  destruct (Hformatted key formattedValue Hin) as [currentValue ->].
  split; [apply commitFormat_parses_back|].
  intros Hkey.
  destruct (remoteSave key (commitFormat currentValue)) as [|msg] eqn:Hr;
    [reflexivity|].
  contradiction Hkey; exact (remoteSave_rejects_only_salesPrice _ _ _ Hr).
Qed.

Lemma reachable_errors_only_on_salesPrice_witness :
  let st := run [Focus downPayment; Change downPayment "3000"; Blur downPayment]
                initialState in
  In (downPayment, "3000.00") (pending st)
  /\ isNaN (parseFloat "3000.00") = false
  /\ remoteSave downPayment "3000.00" = Saved.
Proof.
  assert (Hin : In (downPayment, "3000.00")
                   (pending (run [Focus downPayment; Change downPayment "3000";
                                  Blur downPayment] initialState)))
    by (vm_compute; left; reflexivity).
  split; [exact Hin|].
  destruct (proj2 (reachable_errors_only_on_salesPrice
                     [Focus downPayment; Change downPayment "3000";
                      Blur downPayment]) downPayment "3000.00" Hin)
    as [Hnum Hsaved].
  split; [exact Hnum|apply Hsaved; discriminate].
Defined.

(** ** Sequences of events *)

(** X16: of a run of edits of one field only the last one counts: the
    state is the one the last edit alone would give; and edits of two
    different fields can be made in either order. *)
Theorem edits_compose :
  (forall (st : State) (key : Key) (raws : list string),
      raws <> [] ->
      run (map (Change key) raws) st = step (Change key (last raws "")) st)
  /\ (forall (st : State) (k1 k2 : Key) (raw1 raw2 : string),
        k1 <> k2 ->
        run [Change k1 raw1; Change k2 raw2] st
        = run [Change k2 raw2; Change k1 raw1] st).
Proof.
  split.
  - intros st key raws Hne; rewrite (run_changes _ _ _ Hne); reflexivity.
  - intros st k1 k2 raw1 raw2 Hk; cbn [run step].
    unfold handleFieldChange; cbn [fields amountFinanced originalValueRef pending].
    rewrite !getField_setField_other by congruence.
    rewrite (setField_commute _ k1 k2) by exact Hk.
    reflexivity.
Qed.

Lemma edits_compose_witness :
  run (map (Change salesPrice) ["3"; "30"; "300"]) initialState
    = step (Change salesPrice "300") initialState
  /\ run [Change salesPrice "1"; Change gap "2"] initialState
     = run [Change gap "2"; Change salesPrice "1"] initialState.
Proof.
  split.
  - apply (proj1 edits_compose initialState salesPrice ["3"; "30"; "300"]).
    discriminate.
  - apply (proj2 edits_compose initialState salesPrice gap "1" "2").
    discriminate.
Defined.

(** X17: nothing keeps a field from having two saves suspended at once.  A
    field edited and blurred, then focused, edited to another number and
    blurred again before the first timer fires, has both saves in the
    queue, in that order. *)
Theorem second_blur_queues_second_save :
  forall (st : State) (key : Key) (raw1 raw2 : string),
    let first := commitFormat (parseCurrencyInput raw1) in
    let second := commitFormat (parseCurrencyInput raw2) in
    first <> value (getField (fields st) key) ->
    second <> first ->
    let st' := run [Focus key; Change key raw1; Blur key;
                    Focus key; Change key raw2; Blur key] st in
    pending st' = (pending st ++ [(key, first); (key, second)])%list
    /\ getField (fields st') key = mkField second true false.
Proof.
  intros st key raw1 raw2 first second Hfirst Hsecond; cbn zeta.
  cbn [run].
  set (st1 := step (Change key raw1) (step (Focus key) st)).
  assert (H1 : step (Blur key) st1 =
               mkState (setField (fields st) key (mkField first true false))
                       (amountFinanced st)
                       (Some (value (getField (fields st) key)))
                       (pending st ++ [(key, first)])).
  { cbn [step]; rewrite handleBlur_changed; unfold st1; cbn [step];
      unfold handleFieldChange, handleFocus;
      cbn [fields amountFinanced originalValueRef pending];
      rewrite getField_setField_same; cbn [value]; fold first.
    - rewrite setField_setField; reflexivity.
    - intros H; injection H as H; apply Hfirst; symmetry; exact H. }
  rewrite H1; clear H1 st1.
  set (st2 := mkState _ _ _ _).
  set (st3 := step (Change key raw2) (step (Focus key) st2)).
  cbn [step]; rewrite handleBlur_changed; unfold st3, st2; cbn [step];
    unfold handleFieldChange, handleFocus;
    cbn [fields amountFinanced originalValueRef pending];
    rewrite !getField_setField_same; cbn [value]; fold second.
  - rewrite <- app_assoc; split; reflexivity.
  - intros H; injection H as H; apply Hsecond; symmetry; exact H.
Qed.

Lemma second_blur_queues_second_save_witness :
  let st' := run [Focus warranty; Change warranty "500"; Blur warranty;
                  Focus warranty; Change warranty "750"; Blur warranty]
                 initialState in
  pending st' = [(warranty, "500.00"); (warranty, "750.00")]
  /\ getField (fields st') warranty = mkField "750.00" true false.
Proof.
  refine (second_blur_queues_second_save initialState warranty "500" "750" _ _).
  - vm_compute; discriminate.
  - vm_compute; discriminate.
Defined.

(** X18: until a timer fires the total does not move: no sequence of
    focus, change and blur events changes [amountFinanced]. *)
Theorem total_waits_for_timer :
  forall (evs : list Event) (st : State),
    forallb (fun ev => negb (isTimerFires ev)) evs = true ->
    amountFinanced (run evs st) = amountFinanced st.
Proof.
  induction evs as [|ev evs IH]; intros st H; [reflexivity|].
  cbn [forallb] in H; apply andb_true_iff in H as [Hev Hevs].
  cbn [run]; rewrite (IH _ Hevs).
  assert (Hnot : isTimerFires ev = false) by (apply negb_true_iff, Hev).
  clear Hev Hevs IH; revert Hnot.
  destruct ev as [k|k raw|k|]; cbn [step].
  - reflexivity.
  - reflexivity.
  - unfold handleBlur.
    destruct (match originalValueRef st with
              | Some original => _
              | None => false
              end); [destruct (negb (String.eqb _ _))|]; reflexivity.
  - discriminate.
Qed.

Lemma total_waits_for_timer_witness :
  amountFinanced (run [Focus salesPrice; Change salesPrice "50000";
                       Blur salesPrice; Focus cpi; Change cpi "12.5"] initialState)
  = amountFinanced initialState.
Proof.
  apply (total_waits_for_timer
           [Focus salesPrice; Change salesPrice "50000"; Blur salesPrice;
            Focus cpi; Change cpi "12.5"] initialState).
  reflexivity.
Defined.

(** ** No negative amount *)

Lemma parsesUnsigned_of_signedAs v :
  signedAs false (parseFloat v) -> parsesUnsigned v = true.
Proof.
  unfold parsesUnsigned.
  destruct (parseFloat v) as [[]|[]| |[] m e]; simpl; intros H;
    try reflexivity; try discriminate; contradiction.
Qed.

Lemma parsesUnsigned_numeric v :
  JSString.forallb JSString.isNumericChar v = true -> parsesUnsigned v = true.
Proof.
  intros H.
  destruct (parseUnsigned_signed_or_NaN v) as [Hnan|Hsigned];
    rewrite <- (parseFloat_numeric _ H) in *.
  - unfold parsesUnsigned; destruct (parseFloat v); try discriminate; reflexivity.
  - apply parsesUnsigned_of_signedAs, Hsigned.
Qed.

Lemma commitFormat_unsigned currentValue :
  parsesUnsigned currentValue = true ->
  parsesUnsigned (commitFormat currentValue) = true.
Proof.
  unfold parsesUnsigned at 1, commitFormat.
  destruct (parseFloat currentValue) as [[]|[]| |[] m e]; try discriminate;
    intros _; cbn [orZero zero toFixed2]; try reflexivity.
  apply parsesUnsigned_of_signedAs, parseFloat_startsWithDigit.
  cbn [append].
  destruct (magnitudeGe m e (10 ^ 21));
    [apply toStringLarge_head | apply insertPoint2_head].
Qed.

Lemma parsesUnsigned_not_negative v :
  parsesUnsigned v = true -> isNegative (parseFloat v) = false.
Proof.
  unfold parsesUnsigned.
  destruct (parseFloat v) as [[]|[]| |[] m e]; try discriminate; reflexivity.
Qed.

Lemma step_valuesUnsigned ev st : valuesUnsigned st -> valuesUnsigned (step ev st).
Proof.
  intros [Hvalues Hpending]; destruct ev as [k|k raw|k|]; cbn [step].
  - split; assumption.
  - unfold handleFieldChange; split; cbn [fields pending]; [|exact Hpending].
    intros key; field_cases key k; [|apply Hvalues].
    apply parsesUnsigned_numeric, parseCurrencyInput_numeric_chars.
  - unfold handleBlur.
    destruct (match originalValueRef st with
              | Some original => _
              | None => false
              end); [destruct (negb (String.eqb _ _))|];
      try (split; assumption); split; cbn [fields pending];
      try exact Hpending;
      try (intros key; field_cases key k; [|apply Hvalues];
           apply commitFormat_unsigned, Hvalues).
    intros key v Hin; apply in_app_or in Hin as [Hin|[Heq|[]]];
      [exact (Hpending _ _ Hin)|].
    injection Heq as _ <-; apply commitFormat_unsigned, Hvalues.
  - destruct (pending st) as [|[k v] rest] eqn:Hp;
      [split; [exact Hvalues|rewrite Hp; exact Hpending]|].
    assert (Hv : parsesUnsigned v = true)
      by (apply (Hpending k v); left; reflexivity).
    assert (Hrest : forall key w, In (key, w) rest -> parsesUnsigned w = true)
      by (intros key w Hin; apply (Hpending key w); right; exact Hin).
    unfold resumeBlur; destruct (remoteSave k v); split; cbn [fields pending];
      try exact Hrest; intros key; field_cases key k;
      solve [apply Hvalues | exact Hv].
Qed.

Lemma run_valuesUnsigned evs st : valuesUnsigned st -> valuesUnsigned (run evs st).
Proof.
  revert st; induction evs as [|ev evs IH]; intros st H; [exact H|].
  cbn [run]; apply IH, step_valuesUnsigned, H.
Qed.

Lemma initialState_valuesUnsigned : valuesUnsigned initialState.
Proof.
  split.
  - intros key; destruct key; vm_compute; reflexivity.
  - intros key v [].
Qed.

(** X19: whatever the events, no field ever holds, and no save ever
    carries, a text that parses to a negative number: a negative amount
    can be neither entered nor saved. *)
Theorem reachable_values_not_negative :
  forall evs : list Event,
    let st := run evs initialState in
    (forall key,
        isNegative (parseFloat (value (getField (fields st) key))) = false)
    /\ (forall key formattedValue,
          In (key, formattedValue) (pending st) ->
          isNegative (parseFloat formattedValue) = false).
Proof.
  intros evs st.
  destruct (run_valuesUnsigned evs initialState initialState_valuesUnsigned)
    as [Hvalues Hpending].
  split.
  - intros key; apply parsesUnsigned_not_negative, Hvalues.
  - intros key v Hin; apply parsesUnsigned_not_negative, (Hpending key v Hin).
Qed.

Lemma reachable_values_not_negative_witness :
  let st := run [Focus gap; Change gap "-250.5"; Blur gap] initialState in
  In (gap, "250.50") (pending st)
  /\ isNegative (parseFloat "250.50") = false
  /\ isNegative (parseFloat (value (getField (fields st) gap))) = false.
Proof.
  assert (Hin : In (gap, "250.50")
                   (pending (run [Focus gap; Change gap "-250.5"; Blur gap]
                                 initialState)))
    by (vm_compute; left; reflexivity).
  split; [exact Hin|].
  destruct (reachable_values_not_negative [Focus gap; Change gap "-250.5"; Blur gap])
    as [Hvalues Hpending].
  split; [exact (Hpending gap "250.50" Hin)|exact (Hvalues gap)].
Defined.

(** ** Every save is answered *)

Lemma pending_step_TimerFires st :
  pending (step TimerFires st) = tl (pending st).
Proof.
  cbn [step]; destruct (pending st) as [|[k v] rest] eqn:Hp; [exact Hp|].
  unfold resumeBlur; destruct (remoteSave k v); reflexivity.
Qed.

Lemma pending_run_timers n st :
  pending (run (repeat TimerFires n) st) = skipn n (pending st).
Proof.
  revert st; induction n as [|n IH]; intros st; [reflexivity|].
  cbn [repeat run]; rewrite IH, pending_step_TimerFires.
  destruct (pending st); [apply skipn_nil|reflexivity].
Qed.

(** X20: once as many timers have fired as saves were suspended, no save
    is suspended any more and no field has its saving flag up, whatever
    the events before. *)
Theorem timers_answer_every_save :
  forall evs : list Event,
    let st := run evs initialState in
    let st' := run (repeat TimerFires (List.length (pending st))) st in
    pending st' = []
    /\ (forall key, isSaving (getField (fields st') key) = false).
Proof.
  intros evs st st'.
  assert (Hempty : pending st' = [])
    by (unfold st'; rewrite pending_run_timers; apply skipn_all).
  split; [exact Hempty|].
  intros key.
  assert (Hreach : st' = run (evs ++ repeat TimerFires (List.length (pending st)))
                             initialState)
    by (unfold st', st; rewrite run_app; reflexivity).
  destruct (run_keeps_invariants
              (evs ++ repeat TimerFires (List.length (pending st)))
              initialState initialState_invariants) as (_ & Hsaving & _).
  rewrite <- Hreach in Hsaving; specialize (Hsaving key).
  rewrite Hempty in Hsaving.
  destruct (isSaving (getField (fields st') key)); [|reflexivity].
  discriminate (Hsaving eq_refl).
Qed.
